(** * VRChat Log Monitor: a shallow embedding of [Source/VRChatLogMonitor.py]

    The monitor tails a log file, matches every new line against the
    configured event keys, stamps and records matching lines in a
    day-partitioned file, shows them in the Tk text widget and queues them
    for a Discord forwarder.

    Conventions of the embedding.
    - A Python [str] is a [string]; its characters stand for the code
      points U+0000..U+00FF.
    - Effects are written in state-passing style over a [World]: the wall
      clock, the output files, the text widget and the shared
      [queue.Queue].
    - Library calls whose code is not part of the program (glob, getmtime,
      the Discord client) are fields of interface classes. *)

From Stdlib Require Import ZArith Ascii String.
From stdpp Require Import base option list gmap strings.

#[local] Set Warnings "-register-all".

(** ** Python strings *)

Module PyStr.

(** [s.startswith(p)], character by character. *)
Fixpoint starts_with (p s : string) : bool :=
  match p with
  | EmptyString => true
  | String a p' =>
      match s with
      | EmptyString => false
      | String b s' => Ascii.eqb a b && starts_with p' s'
      end
  end.

(** [sub in s]: literal containment, tried at every offset of [s]. *)
Fixpoint str_in (sub s : string) : bool :=
  if starts_with sub s then true
  else match s with
       | EmptyString => false
       | String _ s' => str_in sub s'
       end.

(** [s.lstrip(c)] for a one-character set: every leading [c] goes. *)
Fixpoint lstrip (c : ascii) (s : string) : string :=
  match s with
  | String a s' => if Ascii.eqb a c then lstrip c s' else s
  | EmptyString => EmptyString
  end.

Fixpoint drop (n : nat) (s : string) : string :=
  match n, s with
  | S n', String _ s' => drop n' s'
  | _, _ => s
  end.

Fixpoint take (n : nat) (s : string) : string :=
  match n, s with
  | S n', String a s' => String a (take n' s')
  | _, _ => EmptyString
  end.

End PyStr.

(** ** [int(s, base)] for the bases the program uses (10 and 16) *)

Module PyInt.

(** Whitespace as [int] sees it: the C-locale blanks, and the two
    non-ASCII spaces below U+0100 (NEL, NBSP) that the conversion first
    rewrites to a blank. *)
Definition is_space (a : ascii) : bool :=
  let n := nat_of_ascii a in
  (((9 <=? n) && (n <=? 13)) || (n =? 32) || (n =? 133) || (n =? 160))%nat.

Definition digit_value (a : ascii) : option Z :=
  let n := nat_of_ascii a in
  if ((48 <=? n) && (n <=? 57))%nat then Some (Z.of_nat (n - 48))
  else if ((97 <=? n) && (n <=? 122))%nat then Some (Z.of_nat (n - 87))
  else if ((65 <=? n) && (n <=? 90))%nat then Some (Z.of_nat (n - 55))
  else None.

Definition digit_in (base : Z) (a : ascii) : option Z :=
  match digit_value a with
  | Some d => if (d <? base)%Z then Some d else None
  | None => None
  end.

Fixpoint skip_spaces (s : string) : string :=
  match s with
  | String a s' => if is_space a then skip_spaces s' else s
  | EmptyString => EmptyString
  end.

(** The digit scan: digits of [base] and single underscores between
    them.  [prev_us] tells whether the previous character was an
    underscore, [n] counts the digits read, [acc] is their value.  The
    scan stops at the first other character and hands back the rest. *)
Fixpoint scan_digits (base : Z) (s : string) (prev_us : bool) (n : nat) (acc : Z)
  : option (Z * nat * string) :=
  match s with
  | EmptyString => if prev_us then None else Some (acc, n, EmptyString)
  | String a s' =>
      if Ascii.eqb a "_" then
        if prev_us then None else scan_digits base s' true n acc
      else
        match digit_in base a with
        | Some d => scan_digits base s' false (S n) (acc * base + d)%Z
        | None => if prev_us then None else Some (acc, n, s)
        end
  end.

Definition strip_sign (s : string) : bool * string :=
  match s with
  | String "+" s' => (false, s')
  | String "-" s' => (true, s')
  | _ => (false, s)
  end.

(** After the sign, base 16 admits [0x] or [0X], and one underscore
    right after it. *)
Definition strip_prefix (base : Z) (s : string) : string :=
  if (base =? 16)%Z then
    match s with
    | String "0" (String x s') =>
        if Ascii.eqb x "x" || Ascii.eqb x "X" then
          match s' with
          | String "_" s'' => s''
          | _ => s'
          end
        else s
    | _ => s
    end
  else s.

Definition py_int (s : string) (base : Z) : option Z :=
  let '(neg, s1) := strip_sign (skip_spaces s) in
  let s2 := strip_prefix base s1 in
  match s2 with
  | String "_" _ => None
  | _ =>
      match scan_digits base s2 false 0 0%Z with
      | Some (v, n, rest) =>
          if (n =? 0)%nat then None
          else match skip_spaces rest with
               | EmptyString => Some (if neg then (- v)%Z else v)
               | _ => None
               end
      | None => None
      end
  end.

End PyInt.

(** ** Values read from [config.json] *)

(** JSON values as [json.load] returns them ([None], [bool], [int],
    [str], [list], [dict]); fractional numbers are left out. *)
Inductive json : Type :=
| JNull
| JBool (b : bool)
| JNum (z : Z)
| JStr (s : string)
| JArr (items : list json)
| JObj (members : list (string * json)).

(** Python truthiness, as tested by [if x:] and [if not x:]. *)
Definition py_truthy (j : json) : bool :=
  match j with
  | JNull => false
  | JBool b => b
  | JNum z => negb (z =? 0)%Z
  | JStr s => negb (String.eqb s "")
  | JArr items => match items with [] => false | _ => true end
  | JObj members => match members with [] => false | _ => true end
  end.

(** [d.get(key, default)] on a dict whose order plays no role. *)
Definition dict_get (d : gmap string json) (key : string) (default : json) : json :=
  match d !! key with
  | Some v => v
  | None => default
  end.

(** The module-level configuration.  [event_configs] keeps the order in
    which [.items()] yields the events. *)
Record Config : Type := mkConfig {
  log_dir : string;
  log_pattern : string;
  output_log_prefix : string;
  discord_config : gmap string json;
  event_configs : list (string * gmap string json)
}.

(** ** Exceptions *)

Inductive PyExn : Type :=
| ValueError (literal : string)
| AttributeError (attr : string)
| TypeError
| RemoteError (what : string).

(** [int(x)] on a configuration value.  The cap some interpreter versions
    put on the number of digits of a decimal literal is left out. *)
Definition py_int_of_json (j : json) : PyExn + Z :=
  match j with
  | JNum z => inr z
  | JBool b => inr (if b then 1 else 0)%Z
  | JStr s => match PyInt.py_int s 10 with
              | Some z => inr z
              | None => inl (ValueError s)
              end
  | JNull | JArr _ | JObj _ => inl TypeError
  end.

(** ** The wall clock and [strftime] *)

Record datetime : Type := mkDatetime {
  year : N;
  month : N;
  day : N;
  hour : N;
  minute : N;
  second : N;
  microsecond : N
}.

(** The values [datetime] admits. *)
Definition valid_datetime (t : datetime) : Prop :=
  (1 <= year t <= 9999 /\ 1 <= month t <= 12 /\ 1 <= day t <= 31 /\
   hour t <= 23 /\ minute t <= 59 /\ second t <= 59 /\
   microsecond t <= 999999)%N.

Definition digit (n : N) : ascii := ascii_of_N (48 + n mod 10).

(** Zero-padded decimal fields, two and four digits wide. *)
Definition pad2 (n : N) : string :=
  String (digit (n / 10)) (String (digit n) EmptyString).

Definition pad4 (n : N) : string :=
  String (digit (n / 1000)) (String (digit (n / 100)) (pad2 n)).

(** One conversion of [strftime]; only the numeric fields the program
    prints are interpreted, anything else is kept as written. *)
Definition directive (c : ascii) (t : datetime) : string :=
  if Ascii.eqb c "Y" then pad4 (year t)
  else if Ascii.eqb c "m" then pad2 (month t)
  else if Ascii.eqb c "d" then pad2 (day t)
  else if Ascii.eqb c "H" then pad2 (hour t)
  else if Ascii.eqb c "M" then pad2 (minute t)
  else if Ascii.eqb c "S" then pad2 (second t)
  else if Ascii.eqb c "%" then "%"
  else String "%" (String c EmptyString).

Fixpoint strftime (fmt : string) (t : datetime) : string :=
  match fmt with
  | EmptyString => EmptyString
  | String a rest =>
      if Ascii.eqb a "%" then
        match rest with
        | String c rest' => directive c t +:+ strftime rest' t
        | EmptyString => String a EmptyString
        end
      else String a (strftime rest t)
  end.

(** The calendar date of a clock reading. *)
Definition date_of (t : datetime) : N * N * N := (year t, month t, day t).

(** ** The world the monitor acts on *)

Definition item : Type := string * json.

(** [clock] lists the successive answers of [datetime.datetime.now()],
    [reads] counts the calls made so far.  [files] maps a file name to its
    text, [widget] is what was inserted into the text widget (text and
    tag), [queue] is [discord_message_queue], oldest item first. *)
Record World : Type := mkWorld {
  clock : nat -> datetime;
  reads : nat;
  files : gmap string string;
  widget : list (string * string);
  queue : list item
}.

Definition now (w : World) : datetime * World :=
  (clock w (reads w),
   mkWorld (clock w) (S (reads w)) (files w) (widget w) (queue w)).

(** [with open(name, "a") as f: f.write(text)] *)
Definition append_file (name text : string) (w : World) : World :=
  mkWorld (clock w) (reads w)
          (<[name := default EmptyString (files w !! name) +:+ text]> (files w))
          (widget w) (queue w).

(** [text_widget.insert(tk.END, text, tag)]; the [see(tk.END)] that
    follows moves the view only. *)
Definition widget_insert (text tag : string) (w : World) : World :=
  mkWorld (clock w) (reads w) (files w) (widget w ++ [(text, tag)]) (queue w).

(** [discord_message_queue.put(it)] *)
Definition queue_put (it : item) (w : World) : World :=
  mkWorld (clock w) (reads w) (files w) (widget w) (queue w ++ [it]).

(** [discord_message_queue.get_nowait()]; [None] stands for [queue.Empty]. *)
Definition queue_get_nowait (w : World) : option (item * World) :=
  match queue w with
  | [] => None
  | it :: rest => Some (it, mkWorld (clock w) (reads w) (files w) (widget w) rest)
  end.

(** ** The monitor *)

Definition get_output_log_filename (cfg : Config) (w : World) : string * World :=
  let '(t, w1) := now w in
  let current_date := strftime "%Y-%m-%d" t in
  (output_log_prefix cfg +:+ current_date +:+ ".txt", w1).

Definition enqueue_discord_message (cfg : Config) (message : string) (hex_color : json)
    (w : World) : World :=
  if py_truthy (dict_get (discord_config cfg) "enabled" (JBool false))
  then queue_put (message, hex_color) w
  else w.

(** The body run for the first event whose name occurs in the line. *)
Definition dispatch (cfg : Config) (event_name : string) (event_data : gmap string json)
    (line : string) (w : World) : World :=
  let '(t, w1) := now w in
  let timestamp := strftime "%Y-%m-%d %H:%M:%S" t in
  let output_line := timestamp +:+ " - " +:+ line in
  let '(output_log_filename, w2) := get_output_log_filename cfg w1 in
  let w3 := append_file output_log_filename output_line w2 in
  let w4 := widget_insert output_line event_name w3 in
  let hex_color := dict_get event_data "color" (JStr "#FFFFFF") in
  enqueue_discord_message cfg output_line hex_color w4.

(** The [for ... in event_configs.items()] loop; [dispatch] ends with the
    [break]. *)
Fixpoint process_events (cfg : Config) (events : list (string * gmap string json))
    (line : string) (w : World) : World :=
  match events with
  | [] => w
  | (event_name, event_data) :: rest =>
      if PyStr.str_in event_name line
      then dispatch cfg event_name event_data line w
      else process_events cfg rest line w
  end.

Definition process_line (cfg : Config) (line : string) (w : World) : World :=
  process_events cfg (event_configs cfg) line w.

(** ** The log source resolver *)

(** What the resolver asks of the host: [os.path.expandvars],
    [os.path.join], [glob.glob] (matches in enumeration order) and
    [os.path.getmtime] (only compared, so any ordered stamp will do). *)
Class HostOS : Type := {
  expandvars : string -> string;
  path_join : string -> string -> string;
  glob : string -> list string;
  getmtime : string -> Z
}.

(** The loop inside [max(xs, key=f)]: a later element replaces the current
    best only when its key is strictly greater. *)
Fixpoint max_loop {A : Type} (key : A -> Z) (best : A) (best_key : Z) (xs : list A) : A :=
  match xs with
  | [] => best
  | x :: xs' =>
      if (key x >? best_key)%Z
      then max_loop key x (key x) xs'
      else max_loop key best best_key xs'
  end.

(** [max(xs, key=f)]; [None] stands for the [ValueError] on an empty list. *)
Definition py_max {A : Type} (key : A -> Z) (xs : list A) : option A :=
  match xs with
  | [] => None
  | x :: xs' => Some (max_loop key x (key x) xs')
  end.

Definition get_latest_log_file `{HostOS} (cfg : Config) : option string :=
  let log_dir_expanded := expandvars (log_dir cfg) in
  let pattern := path_join log_dir_expanded (log_pattern cfg) in
  let matching_files := glob pattern in
  match matching_files with
  | [] => None
  | _ => py_max getmtime matching_files
  end.

(** [f] is a newest element of [xs], and the first such in the order of
    [xs]: everything before it is strictly older. *)
Definition newest_first_seen {A : Type} (key : A -> Z) (xs : list A) (f : A) : Prop :=
  exists pre post,
    xs = pre ++ f :: post /\
    Forall (fun g => (key g < key f)%Z) pre /\
    Forall (fun g => (key g <= key f)%Z) post.

(** The spec's tie rule: [f] is a newest element of [xs], and the last
    such in the order of [xs]: everything after it is strictly older. *)
Definition newest_last_seen {A : Type} (key : A -> Z) (xs : list A) (f : A) : Prop :=
  exists pre post,
    xs = pre ++ f :: post /\
    Forall (fun g => (key g <= key f)%Z) pre /\
    Forall (fun g => (key g < key f)%Z) post.

(** ** The Discord forwarder *)

Record Embed : Type := mkEmbed {
  description : string;
  color : Z
}.

(** What the forwarder asks of [discord.Client]: channel lookup by id,
    and [channel.send], which answers with the connection's next state
    and the exception it raised, if any.  [N] is the state of the
    connection, [C] the type of channels. *)
Class Discord (N C : Type) : Type := {
  get_channel : N -> Z -> option C;
  channel_send : N -> C -> Embed -> N * option PyExn;
  login_banner : N -> string
}.

(** What the bot does that can be seen from outside, in order. *)
Inductive Event : Type :=
| EvPrint (text : string) (e : option PyExn)
| EvGet (it : item)
| EvSleep (seconds : nat)
| EvSend (embed : Embed).

Record Bot (N : Type) : Type := mkBot {
  conn : N;
  is_closed : bool;
  out : list Event
}.
Arguments mkBot {N} _ _ _.
Arguments conn {N} _.
Arguments is_closed {N} _.
Arguments out {N} _.

Definition emit {N : Type} (ev : Event) (b : Bot N) : Bot N :=
  mkBot (conn b) (is_closed b) (out b ++ [ev]).

Definition set_conn {N : Type} (n : N) (b : Bot N) : Bot N :=
  mkBot n (is_closed b) (out b).

Inductive Completion : Type :=
| Returned
| Raised (e : PyExn)
| Running.

(** [int(hex_color.lstrip('#'), 16)] *)
Definition hex_to_int (hex_color : json) : PyExn + Z :=
  match hex_color with
  | JStr s =>
      let body := PyStr.lstrip "#" s in
      match PyInt.py_int body 16 with
      | Some z => inr z
      | None => inl (ValueError body)
      end
  | _ => inl (AttributeError "lstrip")
  end.

Definition send_error : string := "Error sending message to Discord:".

Section Forwarder.
Context {N C : Type} `{Discord N C}.

(** The inner [try] block for one dequeued item: what was done, and the
    exception that left the block, if any. *)
Definition try_send (channel : C) (it : item) (b : Bot N) : Bot N * option PyExn :=
  match hex_to_int (snd it) with
  | inl e => (b, Some e)
  | inr color_value =>
      let embed := mkEmbed (fst it) color_value in
      let '(n', r) := channel_send (conn b) channel embed in
      (emit (EvSend embed) (set_conn n' b), r)
  end.

(** The [else] branch of the outer [try]: the inner [try] and its
    [except Exception] handler, which prints and goes on. *)
Definition handle_item (channel : C) (it : item) (b : Bot N) : Bot N :=
  let '(b', r) := try_send channel it b in
  match r with
  | None => b'
  | Some e => emit (EvPrint send_error (Some e)) b'
  end.

(** One pass through the body of the [while] loop. *)
Definition forward_iter (channel : C) (b : Bot N) (w : World) : Bot N * World :=
  match queue_get_nowait w with
  | None => (emit (EvSleep 1) b, w)
  | Some (it, w') => (handle_item channel it (emit (EvGet it) b), w')
  end.

(** [while not self.is_closed(): ...], at most [fuel] passes. *)
Fixpoint forward_loop (fuel : nat) (channel : C) (b : Bot N) (w : World)
  : Completion * Bot N * World :=
  if is_closed b then (Returned, b, w)
  else match fuel with
       | O => (Running, b, w)
       | S fuel' =>
           let '(b', w') := forward_iter channel b w in
           forward_loop fuel' channel b' w'
       end.

(** The coroutine, entered once the client is ready. *)
Definition send_messages_from_queue (cfg : Config) (fuel : nat) (b : Bot N) (w : World)
  : Completion * Bot N * World :=
  match py_int_of_json (dict_get (discord_config cfg) "channel_id" (JNum 0)) with
  | inl e => (Raised e, b, w)
  | inr channel_id =>
      match get_channel (conn b) channel_id with
      | None =>
          (Returned,
           emit (EvPrint "Channel not found. Check your channel_id in config." None) b,
           w)
      | Some channel => forward_loop fuel channel b w
      end
  end.

Definition on_ready (cfg : Config) (fuel : nat) (b : Bot N) (w : World)
  : Completion * Bot N * World :=
  send_messages_from_queue cfg fuel (emit (EvPrint (login_banner (conn b)) None) b) w.

(** The monitor thread and the forwarder task share the queue.  A step
    of the whole is a line processed by the monitor or one pass of the
    open forwarder loop. *)
Inductive sys_step (cfg : Config) (channel : C) : Bot N * World -> Bot N * World -> Prop :=
| step_monitor (line : string) (b : Bot N) (w : World) :
    sys_step cfg channel (b, w) (b, process_line cfg line w)
| step_forwarder (b : Bot N) (w : World) :
    is_closed b = false ->
    sys_step cfg channel (b, w) (forward_iter channel b w).

(** [start_discord_bot]: either it returns at once, or it hands the token
    to [client.run], which calls [on_ready] when the login is through. *)
Inductive BotStart : Type :=
| NotStarted (b : Bot N)
| ClientRun (bot_token : json).

Definition start_discord_bot (cfg : Config) (b : Bot N) : BotStart :=
  let bot_token := dict_get (discord_config cfg) "bot_token" JNull in
  if negb (py_truthy bot_token)
  then NotStarted (emit (EvPrint "No bot token provided in config." None) b)
  else ClientRun bot_token.

End Forwarder.

(** The items a trace shows as taken from the queue, in order. *)
Fixpoint dequeued (tr : list Event) : list item :=
  match tr with
  | [] => []
  | EvGet it :: tr' => it :: dequeued tr'
  | _ :: tr' => dequeued tr'
  end.

(** The embeds a trace shows as handed to [channel.send], in order. *)
Fixpoint sent (tr : list Event) : list Embed :=
  match tr with
  | [] => []
  | EvSend embed :: tr' => embed :: sent tr'
  | _ :: tr' => sent tr'
  end.

(** ** Vocabulary of the properties *)

(** [key] occurs in [line] as a literal substring. *)
Definition occurs_in (key line : string) : Prop :=
  exists a b, line = a +:+ key +:+ b.

(** No configured key occurs in the line. *)
Definition no_key_occurs (events : list (string * gmap string json)) (line : string) : Prop :=
  Forall (fun ev => ~ occurs_in (fst ev) line) events.

(** The record text [dispatch] builds in world [w]: the first clock
    reading, formatted, then [" - "], then the line. *)
Definition record_text (line : string) (w : World) : string :=
  strftime "%Y-%m-%d %H:%M:%S" (clock w (reads w)) +:+ " - " +:+ line.

(** The file [dispatch] writes to in world [w]: named by the clock reading
    that follows the one of the timestamp. *)
Definition record_file (cfg : Config) (w : World) : string :=
  output_log_prefix cfg +:+ strftime "%Y-%m-%d" (clock w (S (reads w))) +:+ ".txt".

(** ** Sample inputs *)

Definition nl : string := String "010" EmptyString.

Definition sample_config : Config :=
  mkConfig "%APPDATA%/VRChat" "output_log_*.txt" "parsed_log_"
           {[ "enabled" := JBool true ]}
           [("OnPlayerJoined", {[ "color" := JStr "#00FF00" ]});
            ("OnPlayerLeft", {[ "color" := JStr "#FF0000" ]});
            ("Joined", ∅)].

Definition sample_line : string := "12:00:00 OnPlayerJoined User123" +:+ nl.

Definition quiet_line : string := "12:00:01 onplayerjoined user123" +:+ nl.

(** A clock that stays within one day, and one that passes midnight
    between its first and its second reading. *)
Definition noon_clock (n : nat) : datetime :=
  mkDatetime 2025 1 1 12 0 (N.of_nat n) 0.

Definition midnight_clock (n : nat) : datetime :=
  match n with
  | O => mkDatetime 2025 1 1 23 59 59 999999
  | S _ => mkDatetime 2025 1 2 0 0 0 0
  end.

Definition fresh_world (clk : nat -> datetime) : World :=
  mkWorld clk 0 ∅ [] [].

(** Two hosts with the same two candidate logs: on the first the second
    file is newer, on the other both carry the same stamp. *)
Definition newer_host : HostOS := {|
  expandvars := fun dir => dir;
  path_join := fun dir name => dir +:+ "/" +:+ name;
  glob := fun _ => ["output_log_01.txt"; "output_log_02.txt"];
  getmtime := fun f => if String.eqb f "output_log_02.txt" then 1700000060%Z
                       else 1700000000%Z
|}.

Definition tie_host : HostOS := {|
  expandvars := fun dir => dir;
  path_join := fun dir name => dir +:+ "/" +:+ name;
  glob := fun _ => ["output_log_01.txt"; "output_log_02.txt"];
  getmtime := fun _ => 1700000000%Z
|}.

Definition empty_host : HostOS := {|
  expandvars := fun dir => dir;
  path_join := fun dir name => dir +:+ "/" +:+ name;
  glob := fun _ => [];
  getmtime := fun _ => 0%Z
|}.

(** A Discord whose only channel has id 42 and whose [send] fails on the
    description ["B"]; the connection state counts the calls of [send]. *)
Definition flaky_discord : Discord nat Z := {|
  get_channel := fun _ id => if (id =? 42)%Z then Some id else None;
  channel_send := fun n _ embed =>
    (S n, if String.eqb (description embed) "B"
          then Some (RemoteError "HTTP 500") else None);
  login_banner := fun _ => "Logged in as monitor (ID: 1)"
|}.

Definition idle_bot : Bot nat := mkBot 0 false [].

Definition item_A : item := ("A", JStr "#00FF00").
Definition item_B : item := ("B", JStr "#FF0000").
Definition item_C : item := ("C", JStr "#FFFFFF").
Definition item_bad : item := ("D", JStr "#GGGGGG").

(** A configuration with credentials for [flaky_discord]. *)
Definition ready_config : Config :=
  mkConfig "%APPDATA%/VRChat" "output_log_*.txt" "parsed_log_"
           {[ "enabled" := JBool true;
              "bot_token" := JStr "token";
              "channel_id" := JStr "42" ]}
           [("OnPlayerJoined", {[ "color" := JStr "#00FF00" ]})].

(** ** The rest of the monitor thread *)

(** Several lines handed to [process_line] one after the other, as the
    tail loop of [LogMonitor.run] does. *)
Definition process_lines (cfg : Config) (lines : list string) (w : World) : World :=
  fold_left (fun w line => process_line cfg line w) lines w.

(** The texts of a list of strings, one after the other. *)
Definition join (texts : list string) : string :=
  fold_right String.append EmptyString texts.

(** [text_widget.tag_config(name, foreground=color)] on the table of tag
    colours of the widget. *)
Definition tag_config (name : string) (foreground : json) (tags : gmap string json)
  : gmap string json :=
  <[name := foreground]> tags.

Fixpoint setup_tags_loop (events : list (string * gmap string json))
    (tags : gmap string json) : gmap string json :=
  match events with
  | [] => tags
  | (event_name, event_data) :: rest =>
      let color := dict_get event_data "color" (JStr "black") in
      setup_tags_loop rest (tag_config event_name color tags)
  end.

Definition setup_text_tags (cfg : Config) (tags : gmap string json) : gmap string json :=
  setup_tags_loop (event_configs cfg) tags.

(** [f.readline()] on the decoded text of the file, read from character
    [pos]: up to and including the next line feed, or all that is left
    when there is none (nothing at the end of the text). *)
Fixpoint take_line (s : string) : string :=
  match s with
  | EmptyString => EmptyString
  | String c s' =>
      if Ascii.eqb c "010" then String c EmptyString
      else String c (take_line s')
  end.

Definition readline (content : string) (pos : nat) : string :=
  take_line (PyStr.drop pos content).

(** What the monitor thread finds around it at one turn of a loop: whether
    the stop event is set, the host as the resolver sees it, and the text
    of every file. *)
Record Env : Type := mkEnv {
  env_stop : bool;
  env_host : HostOS;
  env_source : string -> string
}.

(** [if self.log_file_path:] *)
Definition path_truthy (path : option string) : bool :=
  match path with
  | Some p => negb (String.eqb p "")
  | None => false
  end.

(** The first loop of [run], from turn [i] on: the path it leaves in
    [self.log_file_path] and the turn it left at; [None] when the fuel ran
    out. *)
Fixpoint wait_loop (fuel : nat) (env : nat -> Env) (cfg : Config) (i : nat)
    (log_file_path : option string) : option (option string * nat) :=
  if env_stop (env i) then Some (log_file_path, i)
  else match fuel with
       | O => None
       | S fuel' =>
           let found := @get_latest_log_file (env_host (env i)) cfg in
           if path_truthy found then Some (found, i)
           else wait_loop fuel' env cfg (S i) found
       end.

(** The second loop of [run], from turn [i] on, reading [path] from
    character [pos]: how it ended, the position reached and the world. *)
Fixpoint tail_loop (fuel : nat) (env : nat -> Env) (cfg : Config) (i : nat)
    (path : string) (pos : nat) (w : World) : Completion * nat * World :=
  if env_stop (env i) then (Returned, pos, w)
  else match fuel with
       | O => (Running, pos, w)
       | S fuel' =>
           let line := readline (env_source (env i) path) pos in
           if String.eqb line "" then tail_loop fuel' env cfg (S i) path pos w
           else tail_loop fuel' env cfg (S i) path (pos + String.length line)
                          (process_line cfg line w)
       end.

(** [LogMonitor.run]: what it printed and the world it left. *)
Definition run (fuel : nat) (env : nat -> Env) (cfg : Config) (w : World)
  : Completion * list string * World :=
  match wait_loop fuel env cfg 0 None with
  | None => (Running, [], w)
  | Some (log_file_path, i) =>
      match log_file_path with
      | Some path =>
          if path_truthy log_file_path then
            let pos := String.length (env_source (env i) path) in
            let '(status, _, w') := tail_loop fuel env cfg (S i) path pos w in
            (status, ["Monitoring log file: " +:+ path], w')
          else (Returned, ["No log file found."], w)
      | None => (Returned, ["No log file found."], w)
      end
  end.

(** The lines the second loop hands to [process_line], in order, and the
    position it reaches. *)
Fixpoint tail_lines (fuel : nat) (env : nat -> Env) (i : nat) (path : string) (pos : nat)
  : list string * nat :=
  if env_stop (env i) then ([], pos)
  else match fuel with
       | O => ([], pos)
       | S fuel' =>
           let line := readline (env_source (env i) path) pos in
           if String.eqb line "" then tail_lines fuel' env (S i) path pos
           else let '(lines, pos') :=
                  tail_lines fuel' env (S i) path (pos + String.length line) in
                (line :: lines, pos')
       end.

(** The file only grows: from one turn to the next its text is extended. *)
Definition grows (env : nat -> Env) (path : string) : Prop :=
  forall i, exists more, env_source (env (S i)) path = env_source (env i) path +:+ more.

(** Hexadecimal digits only. *)
Fixpoint all_hex (s : string) : bool :=
  match s with
  | EmptyString => true
  | String a s' =>
      match PyInt.digit_in 16 a with
      | Some _ => all_hex s'
      | None => false
      end
  end.

(** ** More sample inputs *)

(** The shorter key comes first and is part of the longer one. *)
Definition shadow_config : Config :=
  mkConfig "%APPDATA%/VRChat" "output_log_*.txt" "parsed_log_"
           {[ "enabled" := JBool true ]}
           [("Joined", ∅);
            ("OnPlayerJoined", {[ "color" := JStr "#00FF00" ]})].

(** An event with an empty key, and one whose colour is [null]. *)
Definition catch_all_config : Config :=
  mkConfig "%APPDATA%/VRChat" "output_log_*.txt" "parsed_log_"
           {[ "enabled" := JBool true ]}
           [("OnPlayerLeft", {[ "color" := JNull ]}); ("", ∅)].

Definition left_line : string := "12:00:02 OnPlayerLeft User123" +:+ nl.

(** A log that holds one old line when the monitor attaches and gains
    [sample_line] at turn 3; the stop event is set from turn 6 on. *)
Definition growing_env (i : nat) : Env :=
  mkEnv (5 <? i) newer_host
        (fun _ => if i <? 3 then "old line" +:+ nl
                  else "old line" +:+ nl +:+ sample_line).

(** No log ever shows up; the stop event is set from turn 2 on. *)
Definition barren_env (i : nat) : Env :=
  mkEnv (1 <? i) empty_host (fun _ => "").

(** The host of [newer_host], enumerating the same files the other way
    round. *)
Definition reversed_host : HostOS := {|
  expandvars := fun dir => dir;
  path_join := fun dir name => dir +:+ "/" +:+ name;
  glob := fun _ => ["output_log_02.txt"; "output_log_01.txt"];
  getmtime := fun f => if String.eqb f "output_log_02.txt" then 1700000060%Z
                       else 1700000000%Z
|}.

(** One line feed at most, and only at the end; not empty. *)
Definition single_line (line : string) : Prop :=
  line ≠ "" /\
  exists body, PyStr.str_in nl body = false /\ (line = body \/ line = body +:+ nl).

(** A log whose writer flushes [sample_line] in two pieces, the first of
    them seen at turn 0, the second from turn 1 on. *)
Definition split_env (i : nat) : Env :=
  mkEnv false newer_host
        (fun _ => match i with
                  | O => "old line" +:+ nl +:+ "12:00:00 OnPlayer"
                  | S _ => "old line" +:+ nl +:+ "12:00:00 OnPlayer"
                           +:+ "Joined User123" +:+ nl +:+ ""
                  end).

(** What the handler prints for the outcome of a guarded block: the error,
    if one was raised. *)
Definition logged (r : option PyExn) : list Event :=
  match r with
  | Some e => [EvPrint send_error (Some e)]
  | None => []
  end.



(** A character that no base-16 literal of [int] can hold: not a digit of
    base 16, a blank, a sign, an underscore or the [x] of the prefix. *)
Definition foreign_char (a : ascii) : bool :=
  negb (PyInt.is_space a
        || match PyInt.digit_in 16 a with Some _ => true | None => false end
        || Ascii.eqb a "+" || Ascii.eqb a "-" || Ascii.eqb a "_"
        || Ascii.eqb a "x" || Ascii.eqb a "X").

Fixpoint has_foreign_char (s : string) : bool :=
  match s with
  | EmptyString => false
  | String a s' => foreign_char a || has_foreign_char s'
  end.


(** * Properties *)

(** ** Strings *)

#[local] Arguments String.append !_ _ / : simpl nomatch.

Lemma starts_with_app (a s : string) :
  PyStr.starts_with a s = true <-> exists b, s = a +:+ b.
Proof.
  revert s. induction a as [|c a IH]; intros s; simpl.
  - split; [intros _; by exists s | done].
  - destruct s as [|c' s].
    + split; [done | intros [b Hb]; discriminate].
    + destruct (Ascii.eqb_spec c c') as [->|Hne]; simpl.
      * rewrite IH. split; intros [b Hb]; exists b; [by rewrite Hb | by injection Hb].
      * split; [done | intros [b Hb]; injection Hb; congruence].
Qed.

Lemma str_in_unfold (sub s : string) :
  PyStr.str_in sub s =
  if PyStr.starts_with sub s then true
  else match s with
       | EmptyString => false
       | String _ s' => PyStr.str_in sub s'
       end.
Proof. by destruct s. Qed.

Lemma append_assoc (a b c : string) : (a +:+ b) +:+ c = a +:+ (b +:+ c).
Proof. induction a as [|x a IH]; simpl; [done | by f_equal]. Qed.

Lemma append_inv_head (p a b : string) : p +:+ a = p +:+ b -> a = b.
Proof. induction p as [|x p IH]; simpl; [done | intros Heq; injection Heq; auto]. Qed.

Lemma drop_append (a b : string) : PyStr.drop (String.length a) (a +:+ b) = b.
Proof. induction a as [|x a IH]; simpl; [by destruct b | done]. Qed.

Lemma take_append (a b : string) : PyStr.take (String.length a) (a +:+ b) = a.
Proof. induction a as [|x a IH]; simpl; [by destruct b | by f_equal]. Qed.

(** The containment test of the source decides literal occurrence. *)
Lemma str_in_spec (sub s : string) :
  PyStr.str_in sub s = true <-> occurs_in sub s.
Proof.
  unfold occurs_in. split.
  - induction s as [|c s IH]; rewrite str_in_unfold;
      destruct (PyStr.starts_with sub _) eqn:Hp; try done.
    + intros _. apply starts_with_app in Hp as [b Hb]. by exists "", b.
    + intros _. apply starts_with_app in Hp as [b Hb]. by exists "", b.
    + intros Hin. destruct (IH Hin) as (a & b & ->). by exists (String c a), b.
  - intros (a & b & ->). induction a as [|c a IH]; rewrite str_in_unfold.
    + simpl. replace (PyStr.starts_with sub (sub +:+ b)) with true; [done|].
      symmetry. apply starts_with_app. by exists b.
    + destruct (PyStr.starts_with sub _); [done | exact IH].
Qed.

Lemma str_in_false (sub s : string) :
  PyStr.str_in sub s = false <-> ~ occurs_in sub s.
Proof.
  rewrite <- str_in_spec. by destruct (PyStr.str_in sub s).
Qed.

(** ** The dispatch step, field by field *)

Lemma dispatch_unfold cfg k d line w :
  dispatch cfg k d line w =
  enqueue_discord_message cfg (record_text line w) (dict_get d "color" (JStr "#FFFFFF"))
    (widget_insert (record_text line w) k
       (append_file (record_file cfg w) (record_text line w)
          (mkWorld (clock w) (S (S (reads w))) (files w) (widget w) (queue w)))).
Proof. reflexivity. Qed.

Lemma enqueue_files cfg m c w : files (enqueue_discord_message cfg m c w) = files w.
Proof. unfold enqueue_discord_message. by destruct (py_truthy _). Qed.

Lemma enqueue_widget cfg m c w : widget (enqueue_discord_message cfg m c w) = widget w.
Proof. unfold enqueue_discord_message. by destruct (py_truthy _). Qed.

Lemma enqueue_clock cfg m c w :
  clock (enqueue_discord_message cfg m c w) = clock w /\
  reads (enqueue_discord_message cfg m c w) = reads w.
Proof. unfold enqueue_discord_message. by destruct (py_truthy _). Qed.

Lemma enqueue_queue cfg m c w :
  queue (enqueue_discord_message cfg m c w) =
  if py_truthy (dict_get (discord_config cfg) "enabled" (JBool false))
  then queue w ++ [(m, c)] else queue w.
Proof. unfold enqueue_discord_message. by destruct (py_truthy _). Qed.

Lemma dispatch_files cfg k d line w :
  files (dispatch cfg k d line w) =
  <[record_file cfg w :=
      default "" (files w !! record_file cfg w) +:+ record_text line w]> (files w).
Proof. rewrite dispatch_unfold. rewrite enqueue_files. reflexivity. Qed.

Lemma dispatch_widget cfg k d line w :
  widget (dispatch cfg k d line w) = widget w ++ [(record_text line w, k)].
Proof. rewrite dispatch_unfold. rewrite enqueue_widget. reflexivity. Qed.

Lemma dispatch_queue cfg k d line w :
  queue (dispatch cfg k d line w) =
  if py_truthy (dict_get (discord_config cfg) "enabled" (JBool false))
  then queue w ++ [(record_text line w, dict_get d "color" (JStr "#FFFFFF"))]
  else queue w.
Proof. rewrite dispatch_unfold. rewrite enqueue_queue. reflexivity. Qed.

Lemma dispatch_reads cfg k d line w :
  clock (dispatch cfg k d line w) = clock w /\
  reads (dispatch cfg k d line w) = S (S (reads w)).
Proof.
  rewrite dispatch_unfold.
  split; [rewrite (proj1 (enqueue_clock _ _ _ _)) | rewrite (proj2 (enqueue_clock _ _ _ _))];
    reflexivity.
Qed.

(** ** The matching loop *)

(** The loop either finds no key in the line and changes nothing, or runs
    [dispatch] for the first entry whose key occurs in the line. *)
Lemma process_events_cases cfg events line w :
  (no_key_occurs events line /\ process_events cfg events line w = w) \/
  (exists pre k d post,
      events = pre ++ (k, d) :: post /\
      no_key_occurs pre line /\
      occurs_in k line /\
      process_events cfg events line w = dispatch cfg k d line w).
Proof.
  induction events as [|[k d] rest IH]; simpl.
  - left. split; [constructor | done].
  - destruct (PyStr.str_in k line) eqn:Hk.
    + right. exists [], k, d, rest. repeat split; [constructor | by apply str_in_spec].
    + apply str_in_false in Hk.
      destruct IH as [[Hnone Heq] | (pre & k' & d' & post & -> & Hpre & Hocc & Heq)].
      * left. split; [by constructor | done].
      * right. exists ((k, d) :: pre), k', d', post.
        repeat split; [by constructor | done | done].
Qed.

Lemma no_key_occurs_app pre ev post line :
  no_key_occurs (pre ++ ev :: post) line -> ~ occurs_in (fst ev) line.
Proof.
  unfold no_key_occurs. rewrite Forall_app, Forall_cons. tauto.
Qed.

(** Once the first matching entry is known, so is the outcome. *)
Lemma process_events_first cfg pre k d post line w :
  no_key_occurs pre line ->
  occurs_in k line ->
  process_events cfg (pre ++ (k, d) :: post) line w = dispatch cfg k d line w.
Proof.
  intros Hpre Hocc. induction Hpre as [|[k' d'] pre Hk' _ IH]; simpl.
  - apply str_in_spec in Hocc. by rewrite Hocc.
  - apply str_in_false in Hk'. simpl in Hk'. by rewrite Hk'.
Qed.

(** C1. For every line and every event mapping, the loop of
    [process_line] walks the configured keys in mapping order.  Either no
    key occurs in the line as a literal (character for character)
    substring and nothing fires: the world is left as it was.  Or the
    mapping splits at its first entry whose key occurs in the line, no
    earlier key occurring, and exactly that entry fires, once: the outcome
    is one [dispatch] for it, and the text widget gains one record, tagged
    with that key, whatever later keys occur in the line too. *)
Theorem C1_first_key_wins (cfg : Config) (line : string) (w : World) :
  (no_key_occurs (event_configs cfg) line /\ process_line cfg line w = w) \/
  (exists pre k d post,
      event_configs cfg = pre ++ (k, d) :: post /\
      no_key_occurs pre line /\
      occurs_in k line /\
      process_line cfg line w = dispatch cfg k d line w /\
      widget (process_line cfg line w) = widget w ++ [(record_text line w, k)]).
Proof.
  unfold process_line.
  destruct (process_events_cases cfg (event_configs cfg) line w)
    as [Hnone | (pre & k & d & post & Hsplit & Hpre & Hocc & Heq)].
  - by left.
  - right. exists pre, k, d, post. repeat split; try done.
    rewrite Heq. apply dispatch_widget.
Qed.

(** C2. When no configured key occurs in the line, processing it has no
    effect: the world after is the world before, and with it the output
    files, the text widget and the notification queue (and the clock is
    not even read). *)
Theorem C2_no_match_no_effect (cfg : Config) (line : string) (w : World) :
  no_key_occurs (event_configs cfg) line ->
  process_line cfg line w = w /\
  files (process_line cfg line w) = files w /\
  widget (process_line cfg line w) = widget w /\
  queue (process_line cfg line w) = queue w.
Proof.
  intros Hnone.
  assert (process_line cfg line w = w) as ->; [|done].
  unfold process_line.
  destruct (process_events_cases cfg (event_configs cfg) line w)
    as [[_ Heq] | (pre & k & d & post & Hsplit & _ & Hocc & _)]; [done|].
  rewrite Hsplit in Hnone. by apply no_key_occurs_app in Hnone.
Qed.

(** A line is matched when some configured key occurs in it. *)
Lemma matched_dispatch cfg line w :
  (exists k d, (k, d) ∈ event_configs cfg /\ occurs_in k line) ->
  exists k d, (k, d) ∈ event_configs cfg /\ occurs_in k line /\
              process_line cfg line w = dispatch cfg k d line w.
Proof.
  intros (k0 & d0 & Hin & Hocc0). unfold process_line.
  destruct (process_events_cases cfg (event_configs cfg) line w)
    as [[Hnone _] | (pre & k & d & post & Hsplit & _ & Hocc & Heq)].
  - unfold no_key_occurs in Hnone. rewrite Forall_forall in Hnone.
    by destruct (Hnone _ Hin).
  - exists k, d. split; [|by split].
    rewrite Hsplit. apply elem_of_app. right. by left.
Qed.

(** ** Timestamps *)

Lemma strftime_datetime t :
  strftime "%Y-%m-%d %H:%M:%S" t =
  pad4 (year t) +:+ "-" +:+ pad2 (month t) +:+ "-" +:+ pad2 (day t) +:+ " " +:+
  pad2 (hour t) +:+ ":" +:+ pad2 (minute t) +:+ ":" +:+ pad2 (second t).
Proof. reflexivity. Qed.

Lemma strftime_date t :
  strftime "%Y-%m-%d" t =
  pad4 (year t) +:+ "-" +:+ pad2 (month t) +:+ "-" +:+ pad2 (day t).
Proof. reflexivity. Qed.

Lemma strftime_datetime_length t :
  String.length (strftime "%Y-%m-%d %H:%M:%S" t) = 19.
Proof. reflexivity. Qed.

(** The timestamp starts with the date string of the same reading. *)
Lemma strftime_datetime_date t :
  PyStr.take 10 (strftime "%Y-%m-%d %H:%M:%S" t) = strftime "%Y-%m-%d" t.
Proof. reflexivity. Qed.

Lemma digit_inj a b : digit a = digit b -> (a mod 10 = b mod 10)%N.
Proof.
  unfold digit. intros Heq. apply (f_equal N_of_ascii) in Heq.
  assert (a mod 10 < 10)%N by (apply N.mod_lt; lia).
  assert (b mod 10 < 10)%N by (apply N.mod_lt; lia).
  rewrite !N_ascii_embedding in Heq by lia. lia.
Qed.

Lemma decimal2 a :
  (a < 100)%N -> a = (10 * ((a / 10) mod 10) + a mod 10)%N.
Proof.
  intros Ha.
  pose proof (N.div_mod a 10 ltac:(lia)) as E0.
  assert (a / 10 < 10)%N by (apply N.Div0.div_lt_upper_bound; lia).
  rewrite (N.mod_small (a / 10) 10) by lia. lia.
Qed.

Lemma decimal4 a :
  (a < 10000)%N ->
  a = (1000 * ((a / 1000) mod 10) + 100 * ((a / 100) mod 10) +
       10 * ((a / 10) mod 10) + a mod 10)%N.
Proof.
  intros Ha.
  pose proof (N.div_mod a 10 ltac:(lia)) as E0.
  pose proof (N.div_mod (a / 10) 10 ltac:(lia)) as E1.
  pose proof (N.div_mod (a / 100) 10 ltac:(lia)) as E2.
  rewrite N.Div0.div_div in E1, E2.
  change (10 * 10)%N with 100%N in E1. change (100 * 10)%N with 1000%N in E2.
  assert (a / 1000 < 10)%N by (apply N.Div0.div_lt_upper_bound; lia).
  rewrite (N.mod_small (a / 1000) 10) by lia. lia.
Qed.

Lemma pad2_inj a b : (a < 100)%N -> (b < 100)%N -> pad2 a = pad2 b -> a = b.
Proof.
  intros Ha Hb Heq. unfold pad2 in Heq. injection Heq as H1 H0.
  apply digit_inj in H1, H0.
  etransitivity; [apply decimal2, Ha|]. rewrite H1, H0.
  symmetry. apply decimal2, Hb.
Qed.

Lemma pad4_inj a b : (a < 10000)%N -> (b < 10000)%N -> pad4 a = pad4 b -> a = b.
Proof.
  intros Ha Hb Heq. unfold pad4, pad2 in Heq. injection Heq as H3 H2 H1 H0.
  apply digit_inj in H3, H2, H1, H0.
  etransitivity; [apply decimal4, Ha|]. rewrite H3, H2, H1, H0.
  symmetry. apply decimal4, Hb.
Qed.

(** On the values [datetime] admits, the date string determines the date. *)
Lemma strftime_date_inj t1 t2 :
  valid_datetime t1 -> valid_datetime t2 ->
  strftime "%Y-%m-%d" t1 = strftime "%Y-%m-%d" t2 ->
  date_of t1 = date_of t2.
Proof.
  intros (Hy1 & Hm1 & Hd1 & _) (Hy2 & Hm2 & Hd2 & _) Heq.
  rewrite !strftime_date in Heq. unfold pad4, pad2 in Heq. simpl in Heq.
  injection Heq as Y3 Y2 Y1 Y0 M1 M0 D1 D0.
  assert (year t1 = year t2) as Hy.
  { apply pad4_inj; [lia | lia |]. unfold pad4, pad2. congruence. }
  assert (month t1 = month t2) as Hm.
  { apply pad2_inj; [lia | lia |]. unfold pad2. congruence. }
  assert (day t1 = day t2) as Hd.
  { apply pad2_inj; [lia | lia |]. unfold pad2. congruence. }
  unfold date_of. congruence.
Qed.

Lemma append_inv_tail_date (d1 d2 sfx : string) :
  String.length d1 = String.length d2 -> d1 +:+ sfx = d2 +:+ sfx -> d1 = d2.
Proof.
  revert d2. induction d1 as [|x d1 IH]; intros [|y d2] Hlen Heq; simpl in *;
    try done.
  injection Heq as -> Heq. f_equal. apply IH; [lia | done].
Qed.

Lemma get_output_log_filename_eq cfg w :
  get_output_log_filename cfg w =
  (output_log_prefix cfg +:+ strftime "%Y-%m-%d" (clock w (reads w)) +:+ ".txt",
   mkWorld (clock w) (S (reads w)) (files w) (widget w) (queue w)).
Proof. reflexivity. Qed.

(** The padded fields are decimal numerals: read back by [int], they give
    the number they were made from. *)
Lemma pad2_reads_back n :
  (n < 100)%N -> PyInt.py_int (pad2 n) 10 = Some (Z.of_N n).
Proof.
  intros Hn.
  assert (forallb (fun i => bool_decide (PyInt.py_int (pad2 (N.of_nat i)) 10
                                         = Some (Z.of_N (N.of_nat i))))
                  (seq 0 100) = true) as Hall by (vm_compute; reflexivity).
  rewrite forallb_forall in Hall. specialize (Hall (N.to_nat n)).
  rewrite N2Nat.id in Hall. eapply bool_decide_eq_true_1, Hall, in_seq. lia.
Qed.

Lemma pad4_reads_back n :
  (n < 10000)%N -> PyInt.py_int (pad4 n) 10 = Some (Z.of_N n).
Proof.
  intros Hn.
  assert (forallb (fun i => bool_decide (PyInt.py_int (pad4 (N.of_nat i)) 10
                                         = Some (Z.of_N (N.of_nat i))))
                  (seq 0 (100 * 100)) = true) as Hall by (vm_compute; reflexivity).
  rewrite forallb_forall in Hall. specialize (Hall (N.to_nat n)).
  rewrite N2Nat.id in Hall. eapply bool_decide_eq_true_1, Hall, in_seq. lia.
Qed.

(** ** The written record *)

(** C3. For every matched line, the day's output file afterwards holds
    its former text followed by the record: the first clock reading as
    YYYY-MM-DD HH:MM:SS (zero-padded decimal fields), then [" - "], then
    the line as it came, terminator included.  No other file changes.  The
    prefix is 22 characters long, and dropping the former text and those
    22 characters from what is read back leaves exactly the line. *)
Theorem C3_record_roundtrip (cfg : Config) (line : string) (w : World) :
  (exists k d, (k, d) ∈ event_configs cfg /\ occurs_in k line) ->
  let w' := process_line cfg line w in
  let t := clock w (reads w) in
  let stamp :=
    pad4 (year t) +:+ "-" +:+ pad2 (month t) +:+ "-" +:+ pad2 (day t) +:+ " " +:+
    pad2 (hour t) +:+ ":" +:+ pad2 (minute t) +:+ ":" +:+ pad2 (second t) in
  let old := default "" (files w !! record_file cfg w) in
  files w' !! record_file cfg w = Some (old +:+ (stamp +:+ " - " +:+ line)) /\
  (forall f, f ≠ record_file cfg w -> files w' !! f = files w !! f) /\
  String.length (stamp +:+ " - ") = 22 /\
  (forall content,
      files w' !! record_file cfg w = Some content ->
      PyStr.drop 22 (PyStr.drop (String.length old) content) = line).
Proof.
  intros Hmatch w' t stamp old.
  destruct (matched_dispatch cfg line w Hmatch) as (k & d & _ & _ & Heq).
  assert (files w' !! record_file cfg w = Some (old +:+ (stamp +:+ " - " +:+ line)))
    as Hnew.
  { unfold w'. rewrite Heq, dispatch_files. by rewrite lookup_insert_eq. }
  split; [exact Hnew|]. split; [|split].
  - intros f Hf. unfold w'. rewrite Heq, dispatch_files. by rewrite lookup_insert_ne.
  - reflexivity.
  - intros content Hc. rewrite Hnew in Hc. injection Hc as <-.
    rewrite drop_append. reflexivity.
Qed.

Lemma C3_record_roundtrip_witness :
  files (process_line sample_config sample_line (fresh_world noon_clock))
    !! "parsed_log_2025-01-01.txt"
  = Some ("" +:+ ("2025-01-01 12:00:00" +:+ " - " +:+ sample_line)).
Proof.
  apply (C3_record_roundtrip sample_config sample_line (fresh_world noon_clock)).
  exists "OnPlayerJoined", {[ "color" := JStr "#00FF00" ]}.
  split; [left | apply str_in_spec; reflexivity].
Defined.

(** ** Day-partitioned file names *)

(** The name [get_output_log_filename] returns is the configured prefix,
    then the date of the clock reading it takes, as YYYY-MM-DD (zero-padded
    decimal fields), then [".txt"].  Hence two names generated at readings
    of different calendar dates differ, each carrying the date of its own
    reading. *)
Lemma day_partitioned_filename (cfg : Config) (w1 w2 : World) :
  let t1 := clock w1 (reads w1) in
  let t2 := clock w2 (reads w2) in
  valid_datetime t1 -> valid_datetime t2 ->
  fst (get_output_log_filename cfg w1) =
    output_log_prefix cfg +:+
    (pad4 (year t1) +:+ "-" +:+ pad2 (month t1) +:+ "-" +:+ pad2 (day t1)) +:+ ".txt" /\
  fst (get_output_log_filename cfg w2) =
    output_log_prefix cfg +:+
    (pad4 (year t2) +:+ "-" +:+ pad2 (month t2) +:+ "-" +:+ pad2 (day t2)) +:+ ".txt" /\
  (date_of t1 ≠ date_of t2 ->
   fst (get_output_log_filename cfg w1) ≠ fst (get_output_log_filename cfg w2)).
Proof.
  intros t1 t2 Hv1 Hv2. split; [reflexivity|]. split; [reflexivity|].
  intros Hdates Hnames. apply Hdates.
  rewrite !get_output_log_filename_eq in Hnames. cbn [fst] in Hnames.
  apply append_inv_head in Hnames.
  apply append_inv_tail_date in Hnames; [|reflexivity].
  by apply strftime_date_inj.
Qed.

Lemma day_partitioned_filename_witness :
  fst (get_output_log_filename sample_config (fresh_world midnight_clock))
  ≠ fst (get_output_log_filename sample_config
           (snd (now (fresh_world midnight_clock)))).
Proof.
  apply (day_partitioned_filename sample_config
           (fresh_world midnight_clock) (snd (now (fresh_world midnight_clock)))).
  - vm_compute. repeat split; discriminate.
  - vm_compute. repeat split; discriminate.
  - vm_compute. discriminate.
Defined.

(** ** File date and timestamp date *)

(** When the two clock readings of a dispatch fall on the same calendar
    date, the date in the file name is the date that opens the record. *)
Lemma dispatch_same_day cfg line w :
  date_of (clock w (reads w)) = date_of (clock w (S (reads w))) ->
  record_file cfg w =
  output_log_prefix cfg +:+ PyStr.take 10 (record_text line w) +:+ ".txt".
Proof.
  intros Hsame. unfold record_file, record_text.
  change 10 with (String.length (strftime "%Y-%m-%d" (clock w (reads w)))).
  change (strftime "%Y-%m-%d %H:%M:%S" (clock w (reads w)))
    with (strftime "%Y-%m-%d" (clock w (reads w)) +:+
          (" " +:+ pad2 (hour (clock w (reads w))) +:+ ":" +:+
           pad2 (minute (clock w (reads w))) +:+ ":" +:+
           pad2 (second (clock w (reads w))))).
  rewrite append_assoc, take_append.
  rewrite !strftime_date. unfold date_of in Hsame. by injection Hsame as -> -> ->.
Qed.

(** When they fall on different dates, the file name carries another date
    than the record. *)
Lemma dispatch_across_midnight cfg line w :
  valid_datetime (clock w (reads w)) ->
  valid_datetime (clock w (S (reads w))) ->
  date_of (clock w (reads w)) ≠ date_of (clock w (S (reads w))) ->
  record_file cfg w ≠
  output_log_prefix cfg +:+ PyStr.take 10 (record_text line w) +:+ ".txt".
Proof.
  intros Hv1 Hv2 Hdiff Heq. apply Hdiff. unfold record_file, record_text in Heq.
  apply append_inv_head in Heq. symmetry in Heq.
  apply append_inv_tail_date in Heq; [|reflexivity].
  by apply strftime_date_inj.
Qed.

(** The file of a dispatch is the one [get_output_log_filename] names
    when called right after the timestamp was taken. *)
Lemma record_file_eq cfg w :
  record_file cfg w = fst (get_output_log_filename cfg (snd (now w))).
Proof. reflexivity. Qed.

(** C6, at a line processed across midnight.  The timestamp is read at
    23:59:59 on 1 January, the file name one reading later, on 2 January:
    the record dated 2025-01-01 is appended to the file of 2025-01-02, and
    the file of 2025-01-01 is not written. *)
Lemma C6_midnight_record_in_next_day_file :
  let w' := process_line sample_config sample_line (fresh_world midnight_clock) in
  files w' !! "parsed_log_2025-01-02.txt"
    = Some ("2025-01-01 23:59:59 - " +:+ sample_line) /\
  files w' !! "parsed_log_2025-01-01.txt" = None /\
  widget w' = [("2025-01-01 23:59:59 - " +:+ sample_line, "OnPlayerJoined")].
Proof. vm_compute. done. Qed.

(** C5, at two records of which the first is processed across midnight.
    The first record is stamped 23:59:59 on 1 January, the second 00:00:00
    on 2 January; the file name is read on 2 January both times.  The two
    records, generated on different dates, are written to one and the same
    file, that of 2 January, and no file carries the date of the first. *)
Lemma C5_two_dates_one_file :
  let w1 := process_line sample_config sample_line (fresh_world midnight_clock) in
  let w2 := process_line sample_config sample_line w1 in
  widget w2 = [("2025-01-01 23:59:59 - " +:+ sample_line, "OnPlayerJoined");
               ("2025-01-02 00:00:00 - " +:+ sample_line, "OnPlayerJoined")] /\
  files w2 !! "parsed_log_2025-01-02.txt"
    = Some (("2025-01-01 23:59:59 - " +:+ sample_line)
            +:+ ("2025-01-02 00:00:00 - " +:+ sample_line)) /\
  files w2 !! "parsed_log_2025-01-01.txt" = None.
Proof. vm_compute. done. Qed.

(** ** Enqueueing *)

(** C8. For a matched line, with [(k, d)] the first entry whose key
    occurs in it: the pair (record text, event colour) is appended to the
    notification queue exactly when [discord.enabled] is truthy, which for
    a JSON boolean means [true]; otherwise, and also when the key is
    absent, the queue is left as it was.  The colour is the event's
    ["color"] entry, and ["#FFFFFF"] when the event has none. *)
Theorem C8_enqueue_iff_enabled (cfg : Config) (line : string) (w : World)
    (pre post : list (string * gmap string json)) (k : string) (d : gmap string json) :
  event_configs cfg = pre ++ (k, d) :: post ->
  no_key_occurs pre line ->
  occurs_in k line ->
  let w' := process_line cfg line w in
  let enabled := discord_config cfg !! "enabled" in
  let hex_color := default (JStr "#FFFFFF") (d !! "color") in
  let pushed := queue w' = queue w ++ [(record_text line w, hex_color)] in
  (pushed <-> py_truthy (default (JBool false) enabled) = true) /\
  (~ pushed -> queue w' = queue w) /\
  (forall b, enabled = Some (JBool b) -> (pushed <-> b = true)) /\
  (enabled = None -> queue w' = queue w).
Proof.
  intros Hsplit Hpre Hocc w' enabled hex_color pushed.
  assert (queue w' =
          if py_truthy (default (JBool false) enabled)
          then queue w ++ [(record_text line w, hex_color)] else queue w) as Hq.
  { unfold w', process_line. rewrite Hsplit, process_events_first by done.
    rewrite dispatch_queue. unfold dict_get, enabled, hex_color.
    by destruct (discord_config cfg !! "enabled"), (d !! "color"). }
  assert (pushed <-> py_truthy (default (JBool false) enabled) = true) as Hiff.
  { unfold pushed. rewrite Hq. destruct (py_truthy _); split; try done.
    intros Heq. apply (f_equal length) in Heq. rewrite length_app in Heq.
    simpl in Heq. lia. }
  split; [exact Hiff|]. split; [|split].
  - intros Hno. rewrite Hq. destruct (py_truthy _); [|done].
    destruct Hno. by apply Hiff.
  - intros b Hb. rewrite Hiff, Hb. by destruct b.
  - intros Hnone. rewrite Hq, Hnone. done.
Qed.

Lemma C8_enqueue_iff_enabled_witness :
  let w := fresh_world noon_clock in
  let w' := process_line sample_config sample_line w in
  let pushed :=
    queue w' = queue w ++ [(record_text sample_line w,
                            default (JStr "#FFFFFF")
                              (({[ "color" := JStr "#00FF00" ]} : gmap string json)
                                 !! "color"))] in
  (pushed <->
   py_truthy (default (JBool false) (discord_config sample_config !! "enabled")) = true) /\
  (~ pushed -> queue w' = queue w) /\
  (forall b, discord_config sample_config !! "enabled" = Some (JBool b) ->
             (pushed <-> b = true)) /\
  (discord_config sample_config !! "enabled" = None -> queue w' = queue w).
Proof.
  apply (C8_enqueue_iff_enabled sample_config sample_line (fresh_world noon_clock)
           [] [("OnPlayerLeft", {[ "color" := JStr "#FF0000" ]}); ("Joined", ∅)]
           "OnPlayerJoined" {[ "color" := JStr "#00FF00" ]}).
  - reflexivity.
  - constructor.
  - apply str_in_spec. reflexivity.
Defined.

(** ** The resolver *)

(** What the loop of [max] returns: the starting element when nothing
    after it is strictly greater, else the first element of the rest that
    exceeds everything before it and is not exceeded later. *)
Lemma max_loop_spec {A : Type} (key : A -> Z) (xs : list A) (best : A) :
  (max_loop key best (key best) xs = best /\
   Forall (fun g => (key g <= key best)%Z) xs) \/
  (exists pre post,
      xs = pre ++ max_loop key best (key best) xs :: post /\
      (key best < key (max_loop key best (key best) xs))%Z /\
      Forall (fun g => (key g < key (max_loop key best (key best) xs))%Z) pre /\
      Forall (fun g => (key g <= key (max_loop key best (key best) xs))%Z) post).
Proof.
  revert best. induction xs as [|x xs IH]; intros best; simpl.
  - left. split; [done | constructor].
  - destruct (Z.gtb_spec (key x) (key best)) as [Hgt | Hle].
    + destruct (IH x) as [[Heq Hall] | (pre & post & Hsplit & Hlt & Hpre & Hpost)].
      * right. exists [], xs. rewrite Heq. repeat split; try done.
      * right. exists (x :: pre), post. repeat split; try done.
        -- simpl. by rewrite <- Hsplit.
        -- lia.
        -- by constructor.
    + destruct (IH best) as [[Heq Hall] | (pre & post & Hsplit & Hlt & Hpre & Hpost)].
      * left. rewrite Heq. split; [done | by constructor].
      * right. exists (x :: pre), post. repeat split; try done.
        -- simpl. by rewrite <- Hsplit.
        -- constructor; [lia | done].
Qed.

Lemma py_max_spec {A : Type} (key : A -> Z) (x : A) (xs : list A) :
  exists f, py_max key (x :: xs) = Some f /\ newest_first_seen key (x :: xs) f.
Proof.
  simpl. eexists. split; [reflexivity|]. unfold newest_first_seen.
  destruct (max_loop_spec key xs x) as [[Heq Hall] | (pre & post & Hsplit & Hlt & Hpre & Hpost)].
  - rewrite Heq. exists [], xs. repeat split; [constructor | done].
  - exists (x :: pre), post. repeat split; try done.
    + simpl. by rewrite <- Hsplit.
    + by constructor.
Qed.

(** C4, as the code has it.  The resolver globs for the pattern joined to
    the directory with its environment variables expanded.  With no match
    it returns [None]; otherwise it returns a match whose modification time
    no other match exceeds, and among several such the one enumerated
    first. *)
Theorem C4_resolver_first_newest `{HostOS} (cfg : Config) :
  let matches := glob (path_join (expandvars (log_dir cfg)) (log_pattern cfg)) in
  (matches = [] /\ get_latest_log_file cfg = None) \/
  (exists f, get_latest_log_file cfg = Some f /\ newest_first_seen getmtime matches f).
Proof.
  intros matches. unfold get_latest_log_file. fold matches.
  destruct matches as [|x xs]; [by left | right].
  apply py_max_spec.
Qed.

(** C4, as the claim has it, fails: on two matches with equal modification
    times the resolver returns the one enumerated first, which is not the
    last newest one. *)
Lemma C4_tie_goes_to_first_seen :
  @get_latest_log_file tie_host sample_config = Some "output_log_01.txt" /\
  ~ (exists f,
        @get_latest_log_file tie_host sample_config = Some f /\
        newest_last_seen (@getmtime tie_host)
          (@glob tie_host
             (@path_join tie_host (@expandvars tie_host (log_dir sample_config))
                (log_pattern sample_config))) f).
Proof.
  split; [reflexivity|].
  intros (f & Hf & pre & post & Hsplit & _ & Hpost).
  injection Hf as <-. simpl in Hsplit.
  destruct pre as [|p pre].
  - injection Hsplit as <-. inversion Hpost as [|? ? Hlt]; subst. simpl in Hlt. lia.
  - injection Hsplit as _ Hsplit. destruct pre as [|q pre]; [discriminate|].
    injection Hsplit as _ Hsplit. by destruct pre.
Qed.

(** The scenarios of the resolver: the newer of two logs, and no log. *)
Lemma resolver_scenarios :
  @get_latest_log_file newer_host sample_config = Some "output_log_02.txt" /\
  @get_latest_log_file empty_host sample_config = None.
Proof. split; reflexivity. Qed.

(** ** The forwarder *)

Lemma dequeued_app tr1 tr2 : dequeued (tr1 ++ tr2) = dequeued tr1 ++ dequeued tr2.
Proof.
  induction tr1 as [|ev tr1 IH]; simpl; [done|].
  destruct ev; simpl; by rewrite IH.
Qed.

Lemma sent_app tr1 tr2 : sent (tr1 ++ tr2) = sent tr1 ++ sent tr2.
Proof.
  induction tr1 as [|ev tr1 IH]; simpl; [done|].
  destruct ev; simpl; by rewrite IH.
Qed.

Lemma enqueue_enabled cfg m c w :
  py_truthy (dict_get (discord_config cfg) "enabled" (JBool false)) = true ->
  enqueue_discord_message cfg m c w = queue_put (m, c) w.
Proof. intros Hen. unfold enqueue_discord_message. by rewrite Hen. Qed.

Section ForwarderFacts.
Context {N C : Type} `{Discord N C}.

(** The guarded block adds to the trace, takes nothing from the queue and
    leaves the client open or closed as it was. *)
Lemma try_send_trace (channel : C) (it : item) (b : Bot N) :
  exists tr,
    out (fst (try_send channel it b)) = out b ++ tr /\
    dequeued tr = [] /\
    is_closed (fst (try_send channel it b)) = is_closed b.
Proof.
  unfold try_send. destruct (hex_to_int (snd it)) as [e | c]; simpl.
  - exists []. by rewrite app_nil_r.
  - destruct (channel_send (conn b) channel (mkEmbed (fst it) c)) as [n' r]; simpl.
    by exists [EvSend (mkEmbed (fst it) c)].
Qed.

Lemma handle_item_trace (channel : C) (it : item) (b : Bot N) :
  exists tr,
    out (handle_item channel it b) = out b ++ tr /\
    dequeued tr = [] /\
    is_closed (handle_item channel it b) = is_closed b.
Proof.
  unfold handle_item.
  destruct (try_send_trace channel it b) as (tr & Hout & Hdeq & Hcl).
  destruct (try_send channel it b) as [b' [e|]]; simpl in *.
  - exists (tr ++ [EvPrint send_error (Some e)]).
    rewrite Hout, app_assoc, dequeued_app, Hdeq. done.
  - by exists tr.
Qed.

Lemma forward_loop_closed (fuel : nat) (channel : C) (b : Bot N) (w : World) :
  is_closed b = true -> forward_loop fuel channel b w = (Returned, b, w).
Proof. intros Hc. destruct fuel; simpl; by rewrite Hc. Qed.

Lemma forward_loop_step (fuel : nat) (channel : C) (b : Bot N) (w : World) :
  is_closed b = false ->
  forward_loop (S fuel) channel b w =
  forward_loop fuel channel (fst (forward_iter channel b w)) (snd (forward_iter channel b w)).
Proof. intros Hc. simpl. rewrite Hc. by destruct (forward_iter channel b w). Qed.

(** The loop takes the queued items oldest first, each once, as many as
    it has passes for, and hands each to the guarded block. *)
Lemma forward_loop_drain (channel : C) (its : list item) :
  forall (b : Bot N) (w : World) (rest : list item),
    is_closed b = false ->
    queue w = its ++ rest ->
    forward_loop (length its) channel b w =
    (Running,
     fold_left (fun b it => handle_item channel it (emit (EvGet it) b)) its b,
     mkWorld (clock w) (reads w) (files w) (widget w) rest).
Proof.
  induction its as [|it its IH]; intros b w rest Hc Hq.
  - simpl in *. rewrite Hc. destruct w; simpl in *. by subst.
  - cbn [length]. rewrite forward_loop_step by done.
    unfold forward_iter, queue_get_nowait. rewrite Hq. cbn [app fst snd].
    destruct (handle_item_trace channel it (emit (EvGet it) b)) as (tr & _ & _ & Hcl).
    rewrite IH with (rest := rest); [done | by rewrite Hcl | done].
Qed.

Lemma process_line_queue cfg line w :
  exists added, queue (process_line cfg line w) = queue w ++ added.
Proof.
  unfold process_line.
  destruct (process_events_cases cfg (event_configs cfg) line w)
    as [[_ ->] | (pre & k & d & post & _ & _ & _ & ->)].
  - exists []. by rewrite app_nil_r.
  - rewrite dispatch_queue. destruct (py_truthy _); [by eexists|].
    exists []. by rewrite app_nil_r.
Qed.

(** However the monitor and the forwarder interleave, the items taken so
    far followed by the items still queued only ever grow at the end: items
    leave the queue in the order they entered it, none is skipped and none
    comes back. *)
Lemma sys_step_fifo cfg (channel : C) (s s' : Bot N * World) :
  sys_step cfg channel s s' ->
  exists added,
    dequeued (out (fst s')) ++ queue (snd s') =
    (dequeued (out (fst s)) ++ queue (snd s)) ++ added.
Proof.
  intros [line b w | b w Hc]; cbn [fst snd].
  - destruct (process_line_queue cfg line w) as [added ->].
    exists added. by rewrite app_assoc.
  - exists []. rewrite app_nil_r. unfold forward_iter, queue_get_nowait.
    destruct (queue w) as [|it rest] eqn:Hq; cbn [fst snd].
    + cbn [emit out]. rewrite dequeued_app, Hq. simpl. by rewrite !app_nil_r.
    + destruct (handle_item_trace channel it (emit (EvGet it) b)) as (tr & -> & Hd & _).
      cbn [emit out queue]. rewrite !dequeued_app, Hd. simpl.
      by rewrite app_nil_r, <- app_assoc.
Qed.

Lemma fifo_invariant cfg (channel : C) (s s' : Bot N * World) :
  rtc (sys_step cfg channel) s s' ->
  exists added,
    dequeued (out (fst s')) ++ queue (snd s') =
    (dequeued (out (fst s)) ++ queue (snd s)) ++ added.
Proof.
  induction 1 as [s | s s1 s' Hstep _ [added2 IH]].
  - exists []. by rewrite app_nil_r.
  - destruct (sys_step_fifo cfg channel s s1 Hstep) as [added1 H1].
    exists (added1 ++ added2). by rewrite IH, H1, <- app_assoc.
Qed.

(** With a colour that converts, the guarded block calls [channel.send]
    once, with the message and the colour value, and prints the error if
    the call raised. *)
Lemma handle_item_valid (channel : C) (it : item) (c : Z) (b : Bot N) :
  hex_to_int (snd it) = inr c ->
  handle_item channel it b =
  mkBot (fst (channel_send (conn b) channel (mkEmbed (fst it) c)))
        (is_closed b)
        (out b ++ EvSend (mkEmbed (fst it) c)
               :: logged (snd (channel_send (conn b) channel (mkEmbed (fst it) c)))).
Proof.
  intros Hc. unfold handle_item, try_send. rewrite Hc.
  destruct (channel_send (conn b) channel (mkEmbed (fst it) c)) as [n' [e|]];
    cbn [fst snd logged]; unfold emit, set_conn; cbn [out conn is_closed].
  - by rewrite <- app_assoc.
  - done.
Qed.

(** C7. With notification enabled and the queue empty, enqueue A, B, C in
    this order, their colours being convertible, and let the open forwarder
    make three passes.  It takes A, then B, then C from the queue and calls
    [channel.send] for each in that order, once each, with the connection
    as the previous call left it; after a call that raised it prints the
    error and goes on.  So when the delivery of B raises, the error is
    printed, B is neither sent again nor queued again, and C is taken and
    sent next.  The queue is empty at the end. *)
Theorem C7_fifo_delivery (cfg : Config) (channel : C) (b : Bot N) (w : World)
    (A B C3 : item) (cA cB cC : Z) :
  py_truthy (dict_get (discord_config cfg) "enabled" (JBool false)) = true ->
  queue w = [] ->
  is_closed b = false ->
  hex_to_int (snd A) = inr cA ->
  hex_to_int (snd B) = inr cB ->
  hex_to_int (snd C3) = inr cC ->
  let w3 :=
    enqueue_discord_message cfg (fst C3) (snd C3)
      (enqueue_discord_message cfg (fst B) (snd B)
         (enqueue_discord_message cfg (fst A) (snd A) w)) in
  let embA := mkEmbed (fst A) cA in
  let embB := mkEmbed (fst B) cB in
  let embC := mkEmbed (fst C3) cC in
  let sA := channel_send (conn b) channel embA in
  let sB := channel_send (fst sA) channel embB in
  let sC := channel_send (fst sB) channel embC in
  let '(status, b3, w') := forward_loop 3 channel b w3 in
  status = Running /\
  queue w' = [] /\
  conn b3 = fst sC /\
  out b3 = out b ++ (EvGet A :: EvSend embA :: logged (snd sA))
                 ++ (EvGet B :: EvSend embB :: logged (snd sB))
                 ++ (EvGet C3 :: EvSend embC :: logged (snd sC)) /\
  sent (out b3) = sent (out b) ++ [embA; embB; embC] /\
  dequeued (out b3) = dequeued (out b) ++ [A; B; C3] /\
  (forall eB,
      snd sB = Some eB ->
      out b3 = out b ++ (EvGet A :: EvSend embA :: logged (snd sA))
                     ++ [EvGet B; EvSend embB; EvPrint send_error (Some eB)]
                     ++ (EvGet C3 :: EvSend embC :: logged (snd sC))).
Proof.
  intros Hen Hq Hc HA HB HC w3 embA embB embC sA sB sC.
  assert (queue w3 = [A; B; C3] ++ []) as Hq3.
  { unfold w3. rewrite !enqueue_enabled by done. simpl. rewrite Hq.
    by destruct A, B, C3. }
  change 3 with (length [A; B; C3]).
  rewrite (forward_loop_drain channel [A; B; C3] b w3 [] Hc Hq3).
  cbn [fold_left queue].
  rewrite (handle_item_valid channel A cA _ HA). cbn [emit conn out is_closed].
  rewrite (handle_item_valid channel B cB _ HB). cbn [emit conn out is_closed].
  rewrite (handle_item_valid channel C3 cC _ HC). cbn [emit conn out is_closed].
  fold embA. fold sA. fold embB. fold sB. fold embC. fold sC.
  assert (forall r, sent (logged r) = [] /\ dequeued (logged r) = []) as Hlog
    by (by intros [e|]).
  assert ((((((out b ++ [EvGet A]) ++ EvSend embA :: logged (snd sA)) ++ [EvGet B])
             ++ EvSend embB :: logged (snd sB)) ++ [EvGet C3])
            ++ EvSend embC :: logged (snd sC)
          = out b ++ (EvGet A :: EvSend embA :: logged (snd sA))
                  ++ (EvGet B :: EvSend embB :: logged (snd sB))
                  ++ (EvGet C3 :: EvSend embC :: logged (snd sC))) as Hout.
  { rewrite <- !app_assoc. reflexivity. }
  rewrite Hout. split; [done|]. split; [done|]. split; [done|]. split; [done|].
  split; [|split].
  - rewrite !sent_app. cbn [sent].
    rewrite (proj1 (Hlog (snd sA))), (proj1 (Hlog (snd sB))), (proj1 (Hlog (snd sC))).
    done.
  - rewrite !dequeued_app. cbn [dequeued].
    rewrite (proj2 (Hlog (snd sA))), (proj2 (Hlog (snd sB))), (proj2 (Hlog (snd sC))).
    done.
  - intros eB HeB. by rewrite HeB.
Qed.


(** C9. Without a bot token, [start_discord_bot] prints the error and
    returns: the client is never run.  When the configured channel id
    resolves to no channel, and so when it is absent (the id looked up is
    then 0) and no channel has id 0, the coroutine prints the error and
    returns, whatever passes it was given: nothing is taken from the queue
    and nothing is sent, and no exception leaves it. *)
Theorem C9_missing_credentials (cfg : Config) (fuel : nat) (b : Bot N) (w : World) :
  (discord_config cfg !! "bot_token" = None ->
   start_discord_bot cfg b =
   NotStarted (emit (EvPrint "No bot token provided in config." None) b)) /\
  (forall channel_id,
      py_int_of_json (dict_get (discord_config cfg) "channel_id" (JNum 0)) = inr channel_id ->
      get_channel (conn b) channel_id = None ->
      send_messages_from_queue cfg fuel b w =
      (Returned,
       emit (EvPrint "Channel not found. Check your channel_id in config." None) b,
       w)) /\
  (discord_config cfg !! "channel_id" = None ->
   get_channel (conn b) 0 = None ->
   send_messages_from_queue cfg fuel b w =
   (Returned,
    emit (EvPrint "Channel not found. Check your channel_id in config." None) b,
    w)).
Proof.
  assert (forall channel_id,
      py_int_of_json (dict_get (discord_config cfg) "channel_id" (JNum 0)) = inr channel_id ->
      get_channel (conn b) channel_id = None ->
      send_messages_from_queue cfg fuel b w =
      (Returned,
       emit (EvPrint "Channel not found. Check your channel_id in config." None) b,
       w)) as Hchan.
  { intros channel_id Hid Hnone. unfold send_messages_from_queue. by rewrite Hid, Hnone. }
  split; [|split].
  - intros Htok. unfold start_discord_bot, dict_get. by rewrite Htok.
  - exact Hchan.
  - intros Habs Hnone. apply (Hchan 0%Z); [|done]. unfold dict_get. by rewrite Habs.
Qed.

End ForwarderFacts.

(** ** The properties at the sample inputs *)

Lemma C2_no_match_no_effect_witness :
  process_line sample_config quiet_line (fresh_world noon_clock) = fresh_world noon_clock /\
  files (process_line sample_config quiet_line (fresh_world noon_clock)) = ∅ /\
  widget (process_line sample_config quiet_line (fresh_world noon_clock)) = [] /\
  queue (process_line sample_config quiet_line (fresh_world noon_clock)) = [].
Proof.
  apply (C2_no_match_no_effect sample_config quiet_line (fresh_world noon_clock)).
  repeat constructor; apply str_in_false; reflexivity.
Defined.

Lemma C7_fifo_delivery_witness :
  let w3 :=
    enqueue_discord_message ready_config (fst item_C) (snd item_C)
      (enqueue_discord_message ready_config (fst item_B) (snd item_B)
         (enqueue_discord_message ready_config (fst item_A) (snd item_A)
            (fresh_world noon_clock))) in
  let embA := mkEmbed (fst item_A) 65280 in
  let embB := mkEmbed (fst item_B) 16711680 in
  let embC := mkEmbed (fst item_C) 16777215 in
  let sA := @channel_send _ _ flaky_discord (conn idle_bot) 42%Z embA in
  let sB := @channel_send _ _ flaky_discord (fst sA) 42%Z embB in
  let sC := @channel_send _ _ flaky_discord (fst sB) 42%Z embC in
  let '(status, b3, w') := @forward_loop _ _ flaky_discord 3 42%Z idle_bot w3 in
  status = Running /\
  queue w' = [] /\
  conn b3 = fst sC /\
  out b3 = out idle_bot ++ (EvGet item_A :: EvSend embA :: logged (snd sA))
                        ++ (EvGet item_B :: EvSend embB :: logged (snd sB))
                        ++ (EvGet item_C :: EvSend embC :: logged (snd sC)) /\
  sent (out b3) = sent (out idle_bot) ++ [embA; embB; embC] /\
  dequeued (out b3) = dequeued (out idle_bot) ++ [item_A; item_B; item_C] /\
  (forall eB,
      snd sB = Some eB ->
      out b3 = out idle_bot ++ (EvGet item_A :: EvSend embA :: logged (snd sA))
                            ++ [EvGet item_B; EvSend embB; EvPrint send_error (Some eB)]
                            ++ (EvGet item_C :: EvSend embC :: logged (snd sC))).
Proof.
  apply (@C7_fifo_delivery _ _ flaky_discord ready_config 42%Z idle_bot
           (fresh_world noon_clock) item_A item_B item_C
           65280%Z 16711680%Z 16777215%Z).
  - reflexivity.
  - reflexivity.
  - reflexivity.
  - reflexivity.
  - reflexivity.
  - reflexivity.
Defined.

(** At the sample input the delivery of B raises, and the whole trace is
    this one. *)
Lemma sample_delivery_trace :
  out (@forward_loop _ _ flaky_discord 3 42%Z idle_bot
         (queue_put item_C (queue_put item_B (queue_put item_A
                                                (fresh_world noon_clock))))).1.2
  = [EvGet item_A; EvSend (mkEmbed "A" 65280);
     EvGet item_B; EvSend (mkEmbed "B" 16711680);
     EvPrint send_error (Some (RemoteError "HTTP 500"));
     EvGet item_C; EvSend (mkEmbed "C" 16777215)].
Proof. reflexivity. Qed.

(** At the sample input B's delivery does raise. *)
Lemma sample_B_raises :
  snd (@try_send _ _ flaky_discord 42%Z item_B
         (emit (EvGet item_B)
            (@handle_item _ _ flaky_discord 42%Z item_A (emit (EvGet item_A) idle_bot))))
  = Some (RemoteError "HTTP 500").
Proof. reflexivity. Qed.

Lemma C9_missing_credentials_witness :
  @start_discord_bot nat sample_config idle_bot =
    NotStarted (emit (EvPrint "No bot token provided in config." None) idle_bot) /\
  @send_messages_from_queue _ _ flaky_discord sample_config 5 idle_bot
    (queue_put item_A (fresh_world noon_clock)) =
    (Returned,
     emit (EvPrint "Channel not found. Check your channel_id in config." None) idle_bot,
     queue_put item_A (fresh_world noon_clock)).
Proof.
  destruct (@C9_missing_credentials _ _ flaky_discord sample_config 5 idle_bot
              (queue_put item_A (fresh_world noon_clock))) as (Htoken & _ & Hchannel).
  split; [apply Htoken | apply Hchannel]; reflexivity.
Defined.



(** What [int(..., 16)] takes and what it rejects, after the ['#'] are
    stripped. *)
Lemma hex_to_int_samples :
  hex_to_int (JStr "#00FF00") = inr 65280%Z /\
  hex_to_int (JStr "#GGGGGG") = inl (ValueError "GGGGGG") /\
  hex_to_int (JStr "green") = inl (ValueError "green") /\
  hex_to_int (JStr "#") = inl (ValueError "") /\
  hex_to_int (JStr "#12 34") = inl (ValueError "12 34") /\
  hex_to_int (JNull) = inl (AttributeError "lstrip").
Proof. repeat split; reflexivity. Qed.

(** * Further properties *)

(** ** Lines in a row *)

Lemma append_empty_r (a : string) : a +:+ "" = a.
Proof. induction a as [|x a IH]; simpl; [done | by f_equal]. Qed.

Lemma occurs_in_trans (k m line : string) :
  occurs_in k m -> occurs_in m line -> occurs_in k line.
Proof.
  intros (c & e & ->) (a & b & ->).
  exists (a +:+ c), (e +:+ b). by rewrite !append_assoc.
Qed.

Lemma occurs_in_empty (line : string) : occurs_in "" line.
Proof. by exists "", line. Qed.

Lemma process_lines_cons cfg line lines w :
  process_lines cfg (line :: lines) w = process_lines cfg lines (process_line cfg line w).
Proof. reflexivity. Qed.

(** One line leaves the old text of every file in place. *)
Lemma process_line_files_grow cfg line w f :
  exists added,
    default "" (files (process_line cfg line w) !! f) = default "" (files w !! f) +:+ added /\
    (is_Some (files w !! f) -> is_Some (files (process_line cfg line w) !! f)).
Proof.
  unfold process_line.
  destruct (process_events_cases cfg (event_configs cfg) line w)
    as [[_ ->] | (pre & k & d & post & _ & _ & _ & ->)].
  - exists "". by rewrite append_empty_r.
  - rewrite dispatch_files. destruct (decide (f = record_file cfg w)) as [->|Hne].
    + rewrite lookup_insert_eq. eexists. split; [reflexivity | by eexists].
    + rewrite lookup_insert_ne by done. exists "". by rewrite append_empty_r.
Qed.

(** X1. Whatever lines are processed, every output file is only ever
    appended to: its former text is a prefix of its later text, and a file
    that existed still exists. *)
Theorem process_lines_append_only (cfg : Config) (lines : list string) (w : World)
    (f : string) :
  exists added,
    default "" (files (process_lines cfg lines w) !! f)
      = default "" (files w !! f) +:+ added /\
    (is_Some (files w !! f) -> is_Some (files (process_lines cfg lines w) !! f)).
Proof.
  revert w. induction lines as [|line lines IH]; intros w.
  - exists "". by rewrite append_empty_r.
  - rewrite process_lines_cons.
    destruct (process_line_files_grow cfg line w f) as (a1 & H1 & S1).
    destruct (IH (process_line cfg line w)) as (a2 & H2 & S2).
    exists (a1 +:+ a2). rewrite H2, H1, append_assoc. split; [done | auto].
Qed.

Lemma process_events_upto cfg pre k1 d1 rest line w :
  occurs_in k1 line ->
  exists k d,
    (k, d) ∈ pre ++ [(k1, d1)] /\
    occurs_in k line /\
    process_events cfg (pre ++ (k1, d1) :: rest) line w = dispatch cfg k d line w.
Proof.
  intros Hocc. induction pre as [|[k' d'] pre IH]; simpl.
  - exists k1, d1. apply str_in_spec in Hocc as Hin. rewrite Hin.
    split; [by left | done].
  - destruct (PyStr.str_in k' line) eqn:Hk'.
    + exists k', d'. split; [by left|]. split; [by apply str_in_spec | done].
    + destruct IH as (k & d & Hin & Ho & Heq). exists k, d.
      split; [by right | done].
Qed.

(** X2. A key that contains an earlier configured key is shadowed by it:
    every line in which the later key occurs is dispatched to the earlier
    key or to one before it, and tagged so in the widget. *)
Theorem shadowed_key_never_fires (cfg : Config)
    (pre mid post : list (string * gmap string json))
    (k1 k2 : string) (d1 d2 : gmap string json) (line : string) (w : World) :
  event_configs cfg = pre ++ (k1, d1) :: mid ++ (k2, d2) :: post ->
  occurs_in k1 k2 ->
  occurs_in k2 line ->
  exists k d,
    (k, d) ∈ pre ++ [(k1, d1)] /\
    process_line cfg line w = dispatch cfg k d line w /\
    widget (process_line cfg line w) = widget w ++ [(record_text line w, k)].
Proof.
  intros Hcfg H12 H2. unfold process_line. rewrite Hcfg.
  destruct (process_events_upto cfg pre k1 d1 (mid ++ (k2, d2) :: post) line w)
    as (k & d & Hin & _ & Heq); [by eapply occurs_in_trans|].
  exists k, d. split; [done|]. split; [done|]. rewrite Heq. apply dispatch_widget.
Qed.

Lemma shadowed_key_never_fires_witness :
  exists k d,
    (k, d) ∈ [] ++ [("Joined", (∅ : gmap string json))] /\
    process_line shadow_config sample_line (fresh_world noon_clock)
      = dispatch shadow_config k d sample_line (fresh_world noon_clock) /\
    widget (process_line shadow_config sample_line (fresh_world noon_clock))
      = widget (fresh_world noon_clock)
        ++ [(record_text sample_line (fresh_world noon_clock), k)].
Proof.
  apply (shadowed_key_never_fires shadow_config [] [] []
           "Joined" "OnPlayerJoined" ∅ {[ "color" := JStr "#00FF00" ]}).
  - reflexivity.
  - apply str_in_spec. reflexivity.
  - apply str_in_spec. reflexivity.
Defined.

(** X3. An event whose key is the empty string matches every line: with
    such an event configured no line goes unrecorded, each one is
    dispatched to some configured event and shown in the widget. *)
Theorem empty_key_matches_every_line (cfg : Config) (d0 : gmap string json)
    (line : string) (w : World) :
  ("", d0) ∈ event_configs cfg ->
  exists k d,
    (k, d) ∈ event_configs cfg /\
    process_line cfg line w = dispatch cfg k d line w /\
    widget (process_line cfg line w) = widget w ++ [(record_text line w, k)].
Proof.
  intros Hin.
  destruct (matched_dispatch cfg line w) as (k & d & Hk & _ & Heq).
  { exists "", d0. split; [done | apply occurs_in_empty]. }
  exists k, d. split; [done|]. split; [done|]. rewrite Heq. apply dispatch_widget.
Qed.

Lemma empty_key_matches_every_line_witness :
  exists k d,
    (k, d) ∈ event_configs catch_all_config /\
    process_line catch_all_config quiet_line (fresh_world noon_clock)
      = dispatch catch_all_config k d quiet_line (fresh_world noon_clock) /\
    widget (process_line catch_all_config quiet_line (fresh_world noon_clock))
      = widget (fresh_world noon_clock)
        ++ [(record_text quiet_line (fresh_world noon_clock), k)].
Proof.
  apply (empty_key_matches_every_line catch_all_config ∅).
  right. left.
Defined.

(** What one line adds to the widget and to the queue. *)
Lemma process_line_added cfg line w :
  exists wadd qadd,
    widget (process_line cfg line w) = widget w ++ wadd /\
    queue (process_line cfg line w) = queue w ++ qadd /\
    (py_truthy (dict_get (discord_config cfg) "enabled" (JBool false)) = true ->
     map fst qadd = map fst wadd) /\
    (py_truthy (dict_get (discord_config cfg) "enabled" (JBool false)) = false ->
     qadd = []).
Proof.
  unfold process_line.
  destruct (process_events_cases cfg (event_configs cfg) line w)
    as [[_ ->] | (pre & k & d & post & _ & _ & _ & ->)].
  - exists [], []. by rewrite !app_nil_r.
  - rewrite dispatch_widget, dispatch_queue.
    destruct (py_truthy _).
    + by eexists _, _.
    + exists [(record_text line w, k)], []. by rewrite app_nil_r.
Qed.

(** X4. Over any run of lines the queue follows the widget: with
    notification enabled the texts queued are the texts displayed, in the
    same order; with notification off nothing is queued at all. *)
Theorem queue_follows_widget (cfg : Config) (lines : list string) (w : World) :
  exists wadd qadd,
    widget (process_lines cfg lines w) = widget w ++ wadd /\
    queue (process_lines cfg lines w) = queue w ++ qadd /\
    (py_truthy (dict_get (discord_config cfg) "enabled" (JBool false)) = true ->
     map fst qadd = map fst wadd) /\
    (py_truthy (dict_get (discord_config cfg) "enabled" (JBool false)) = false ->
     qadd = []).
Proof.
  revert w. induction lines as [|line lines IH]; intros w.
  - exists [], []. by rewrite !app_nil_r.
  - rewrite process_lines_cons.
    destruct (process_line_added cfg line w) as (w1 & q1 & Hw1 & Hq1 & Hon1 & Hoff1).
    destruct (IH (process_line cfg line w)) as (w2 & q2 & Hw2 & Hq2 & Hon2 & Hoff2).
    exists (w1 ++ w2), (q1 ++ q2).
    rewrite Hw2, Hw1, Hq2, Hq1, <- !app_assoc. repeat split.
    + intros Hon. rewrite !map_app. f_equal; auto.
    + intros Hoff. by rewrite (Hoff1 Hoff), (Hoff2 Hoff).
Qed.

(** ** One day of records *)

Lemma join_app (a b : list string) : join (a ++ b) = join a +:+ join b.
Proof.
  induction a as [|x a IH]; simpl; [done|].
  unfold join in *. simpl. by rewrite IH, append_assoc.
Qed.

Lemma strftime_date_of t1 t2 :
  date_of t1 = date_of t2 -> strftime "%Y-%m-%d" t1 = strftime "%Y-%m-%d" t2.
Proof.
  unfold date_of. intros Heq. injection Heq as Hy Hm Hd.
  by rewrite !strftime_date, Hy, Hm, Hd.
Qed.

Lemma process_line_clock cfg line w : clock (process_line cfg line w) = clock w.
Proof.
  unfold process_line.
  destruct (process_events_cases cfg (event_configs cfg) line w)
    as [[_ ->] | (pre & k & d & post & _ & _ & _ & ->)]; [done|].
  apply dispatch_reads.
Qed.

Lemma process_line_one_day cfg line w (name : string) :
  (forall n, output_log_prefix cfg +:+ strftime "%Y-%m-%d" (clock w n) +:+ ".txt" = name) ->
  exists wadd,
    widget (process_line cfg line w) = widget w ++ wadd /\
    default "" (files (process_line cfg line w) !! name)
      = default "" (files w !! name) +:+ join (map fst wadd) /\
    (forall f, f ≠ name -> files (process_line cfg line w) !! f = files w !! f).
Proof.
  intros Hname. unfold process_line.
  destruct (process_events_cases cfg (event_configs cfg) line w)
    as [[_ ->] | (pre & k & d & post & _ & _ & _ & ->)].
  - exists []. rewrite app_nil_r. simpl. by rewrite append_empty_r.
  - exists [(record_text line w, k)].
    rewrite dispatch_widget, dispatch_files.
    assert (record_file cfg w = name) as -> by apply Hname.
    split; [done|]. split.
    + rewrite lookup_insert_eq. simpl. unfold join. simpl. by rewrite append_empty_r.
    + intros f Hf. by rewrite lookup_insert_ne.
Qed.

(** X5. While every clock reading falls on one calendar date, the day's
    file and the widget tell the same story: over any run of lines, what
    was appended to the day's file is the texts added to the widget, in
    order, and no other file is touched. *)
Theorem one_day_file_matches_widget (cfg : Config) (lines : list string) (w : World) :
  (forall n, date_of (clock w n) = date_of (clock w 0)) ->
  let name := output_log_prefix cfg +:+ strftime "%Y-%m-%d" (clock w 0) +:+ ".txt" in
  exists wadd,
    widget (process_lines cfg lines w) = widget w ++ wadd /\
    default "" (files (process_lines cfg lines w) !! name)
      = default "" (files w !! name) +:+ join (map fst wadd) /\
    (forall f, f ≠ name -> files (process_lines cfg lines w) !! f = files w !! f).
Proof.
  intros Hday name.
  assert (forall n, output_log_prefix cfg +:+ strftime "%Y-%m-%d" (clock w n) +:+ ".txt"
                    = name) as Hname.
  { intros n. unfold name. by rewrite (strftime_date_of _ _ (Hday n)). }
  clear Hday. clearbody name. revert w Hname.
  induction lines as [|line lines IH]; intros w Hname.
  - exists []. rewrite app_nil_r. simpl. by rewrite append_empty_r.
  - rewrite process_lines_cons.
    destruct (process_line_one_day cfg line w name Hname) as (a1 & Hw1 & Hf1 & Ho1).
    destruct (IH (process_line cfg line w)) as (a2 & Hw2 & Hf2 & Ho2).
    { intros n. rewrite process_line_clock. apply Hname. }
    exists (a1 ++ a2). rewrite Hw2, Hw1, Hf2, Hf1, map_app, join_app.
    rewrite <- app_assoc, append_assoc. split; [done|]. split; [done|].
    intros f Hf. by rewrite Ho2, Ho1.
Qed.

Lemma one_day_file_matches_widget_witness :
  exists wadd,
    widget (process_lines sample_config [sample_line; quiet_line; sample_line]
              (fresh_world noon_clock))
      = widget (fresh_world noon_clock) ++ wadd /\
    default "" (files (process_lines sample_config [sample_line; quiet_line; sample_line]
                         (fresh_world noon_clock))
                  !! ("parsed_log_" +:+ "2025-01-01" +:+ ".txt"))
      = default "" (files (fresh_world noon_clock)
                      !! ("parsed_log_" +:+ "2025-01-01" +:+ ".txt"))
        +:+ join (map fst wadd) /\
    (forall f, f ≠ "parsed_log_" +:+ "2025-01-01" +:+ ".txt" ->
               files (process_lines sample_config [sample_line; quiet_line; sample_line]
                        (fresh_world noon_clock)) !! f
               = files (fresh_world noon_clock) !! f).
Proof.
  apply (one_day_file_matches_widget sample_config
           [sample_line; quiet_line; sample_line] (fresh_world noon_clock)).
  intros n. reflexivity.
Defined.

(** X6. The timestamp loses nothing down to the second: read back with
    [int], its six fields are the year, month, day, hour, minute and second
    of the clock reading it was made from. *)
Theorem timestamp_reads_back (t : datetime) :
  valid_datetime t ->
  let ts := strftime "%Y-%m-%d %H:%M:%S" t in
  PyInt.py_int (PyStr.take 4 ts) 10 = Some (Z.of_N (year t)) /\
  PyInt.py_int (PyStr.take 2 (PyStr.drop 5 ts)) 10 = Some (Z.of_N (month t)) /\
  PyInt.py_int (PyStr.take 2 (PyStr.drop 8 ts)) 10 = Some (Z.of_N (day t)) /\
  PyInt.py_int (PyStr.take 2 (PyStr.drop 11 ts)) 10 = Some (Z.of_N (hour t)) /\
  PyInt.py_int (PyStr.take 2 (PyStr.drop 14 ts)) 10 = Some (Z.of_N (minute t)) /\
  PyInt.py_int (PyStr.take 2 (PyStr.drop 17 ts)) 10 = Some (Z.of_N (second t)).
Proof.
  intros (Hy & Hm & Hd & Hh & Hmi & Hs & _) ts.
  change (PyStr.take 4 ts) with (pad4 (year t)).
  change (PyStr.take 2 (PyStr.drop 5 ts)) with (pad2 (month t)).
  change (PyStr.take 2 (PyStr.drop 8 ts)) with (pad2 (day t)).
  change (PyStr.take 2 (PyStr.drop 11 ts)) with (pad2 (hour t)).
  change (PyStr.take 2 (PyStr.drop 14 ts)) with (pad2 (minute t)).
  change (PyStr.take 2 (PyStr.drop 17 ts)) with (pad2 (second t)).
  repeat split; first [apply pad4_reads_back | apply pad2_reads_back]; lia.
Qed.

Lemma timestamp_reads_back_witness :
  let ts := strftime "%Y-%m-%d %H:%M:%S" (midnight_clock 0) in
  PyInt.py_int (PyStr.take 4 ts) 10 = Some (Z.of_N 2025) /\
  PyInt.py_int (PyStr.take 2 (PyStr.drop 5 ts)) 10 = Some (Z.of_N 1) /\
  PyInt.py_int (PyStr.take 2 (PyStr.drop 8 ts)) 10 = Some (Z.of_N 1) /\
  PyInt.py_int (PyStr.take 2 (PyStr.drop 11 ts)) 10 = Some (Z.of_N 23) /\
  PyInt.py_int (PyStr.take 2 (PyStr.drop 14 ts)) 10 = Some (Z.of_N 59) /\
  PyInt.py_int (PyStr.take 2 (PyStr.drop 17 ts)) 10 = Some (Z.of_N 59).
Proof.
  apply (timestamp_reads_back (midnight_clock 0)).
  vm_compute. repeat split; discriminate.
Defined.

(** ** Tag colours *)

Lemma setup_tags_loop_other events tags (k : string) :
  k ∉ map fst events -> setup_tags_loop events tags !! k = tags !! k.
Proof.
  revert tags. induction events as [|[k' d'] events IH]; intros tags Hk; simpl; [done|].
  simpl in Hk. apply not_elem_of_cons in Hk as [Hne Hk].
  rewrite IH by done. unfold tag_config. by rewrite lookup_insert_ne.
Qed.

Lemma setup_tags_loop_some events tags (k : string) :
  k ∈ map fst events -> is_Some (setup_tags_loop events tags !! k).
Proof.
  revert tags. induction events as [|[k' d'] events IH]; intros tags Hk; simpl.
  - by apply elem_of_nil in Hk.
  - destruct (decide (k ∈ map fst events)) as [Hin | Hnot]; [by apply IH|].
    simpl in Hk. apply elem_of_cons in Hk as [-> | Hin]; [|done].
    rewrite setup_tags_loop_other by done. unfold tag_config.
    rewrite lookup_insert_eq. by eexists.
Qed.

(** X7. With distinct event keys, [setup_text_tags] gives every
    configured event a tag coloured with its ["color"] entry, black when it
    has none, and leaves the tags of all other names as they were. *)
Theorem setup_text_tags_colours (cfg : Config) (tags : gmap string json) :
  NoDup (map fst (event_configs cfg)) ->
  (forall k d, (k, d) ∈ event_configs cfg ->
               setup_text_tags cfg tags !! k
               = Some (default (JStr "black") (d !! "color"))) /\
  (forall name, name ∉ map fst (event_configs cfg) ->
                setup_text_tags cfg tags !! name = tags !! name).
Proof.
  intros Hnd. unfold setup_text_tags. split; [|intros; by apply setup_tags_loop_other].
  revert tags. induction (event_configs cfg) as [|[k' d'] events IH]; intros tags k d Hin.
  - by apply elem_of_nil in Hin.
  - simpl in Hnd. apply NoDup_cons in Hnd as [Hfresh Hnd]. simpl.
    apply elem_of_cons in Hin as [Heq | Hin].
    + injection Heq as -> ->. rewrite setup_tags_loop_other by done.
      unfold tag_config, dict_get. rewrite lookup_insert_eq. by destruct (d' !! "color").
    + by apply IH.
Qed.

Lemma setup_text_tags_colours_witness :
  (forall k d, (k, d) ∈ event_configs sample_config ->
               setup_text_tags sample_config ∅ !! k
               = Some (default (JStr "black") (d !! "color"))) /\
  (forall name, name ∉ map fst (event_configs sample_config) ->
                setup_text_tags sample_config ∅ !! name = (∅ : gmap string json) !! name).
Proof.
  apply (setup_text_tags_colours sample_config ∅).
  vm_compute. apply (bool_decide_unpack _). vm_compute. exact I.
Defined.

(** X8. Every record [process_line] shows in the widget carries a tag
    that [setup_text_tags] has configured, so no record is shown without
    its event's colour. *)
Theorem displayed_tags_are_configured (cfg : Config) (line : string) (w : World)
    (tags : gmap string json) :
  exists wadd,
    widget (process_line cfg line w) = widget w ++ wadd /\
    Forall (fun entry => is_Some (setup_text_tags cfg tags !! snd entry)) wadd.
Proof.
  unfold process_line.
  destruct (process_events_cases cfg (event_configs cfg) line w)
    as [[_ ->] | (pre & k & d & post & Hsplit & _ & _ & ->)].
  - exists []. by rewrite app_nil_r.
  - exists [(record_text line w, k)]. rewrite dispatch_widget. split; [done|].
    constructor; [|constructor]. simpl. apply setup_tags_loop_some.
    rewrite Hsplit, map_app. apply elem_of_app. right. by left.
Qed.

Lemma setup_tags_loop_lookup events tags (k : string) (d : gmap string json) :
  NoDup (map fst events) ->
  (k, d) ∈ events ->
  setup_tags_loop events tags !! k = Some (dict_get d "color" (JStr "black")).
Proof.
  revert tags. induction events as [|[k' d'] events IH]; intros tags Hnd Hin.
  - by apply elem_of_nil in Hin.
  - simpl in Hnd. apply NoDup_cons in Hnd as [Hfresh Hnd]. simpl.
    apply elem_of_cons in Hin as [Heq | Hin]; [|by apply IH].
    injection Heq as -> ->. rewrite setup_tags_loop_other by done.
    unfold tag_config. by rewrite lookup_insert_eq.
Qed.

(** X9. The two defaults for a missing colour differ.  With distinct
    keys and notification enabled, a line matched by an event that has no
    ["color"] entry is shown under a tag coloured black, while the colour
    queued with its notification is ["#FFFFFF"]. *)
Theorem colour_defaults_differ (cfg : Config) (line : string) (w : World)
    (pre post : list (string * gmap string json)) (k : string) (d : gmap string json)
    (tags : gmap string json) :
  NoDup (map fst (event_configs cfg)) ->
  event_configs cfg = pre ++ (k, d) :: post ->
  no_key_occurs pre line ->
  occurs_in k line ->
  d !! "color" = None ->
  py_truthy (dict_get (discord_config cfg) "enabled" (JBool false)) = true ->
  setup_text_tags cfg tags !! k = Some (JStr "black") /\
  widget (process_line cfg line w) = widget w ++ [(record_text line w, k)] /\
  queue (process_line cfg line w) = queue w ++ [(record_text line w, JStr "#FFFFFF")].
Proof.
  intros Hnd Hsplit Hpre Hocc Hcol Hen. split; [|split].
  - unfold setup_text_tags. rewrite (setup_tags_loop_lookup _ _ k d Hnd).
    + unfold dict_get. by rewrite Hcol.
    + rewrite Hsplit. apply elem_of_app. right. by left.
  - unfold process_line. rewrite Hsplit, process_events_first by done.
    apply dispatch_widget.
  - unfold process_line. rewrite Hsplit, process_events_first by done.
    rewrite dispatch_queue, Hen. unfold dict_get. by rewrite Hcol.
Qed.

Lemma colour_defaults_differ_witness :
  setup_text_tags shadow_config ∅ !! "Joined" = Some (JStr "black") /\
  widget (process_line shadow_config sample_line (fresh_world noon_clock))
    = widget (fresh_world noon_clock)
      ++ [(record_text sample_line (fresh_world noon_clock), "Joined")] /\
  queue (process_line shadow_config sample_line (fresh_world noon_clock))
    = queue (fresh_world noon_clock)
      ++ [(record_text sample_line (fresh_world noon_clock), JStr "#FFFFFF")].
Proof.
  apply (colour_defaults_differ shadow_config sample_line (fresh_world noon_clock)
           [] [("OnPlayerJoined", {[ "color" := JStr "#00FF00" ]})] "Joined" ∅ ∅).
  - vm_compute. apply (bool_decide_unpack _). vm_compute. exact I.
  - reflexivity.
  - constructor.
  - apply str_in_spec. reflexivity.
  - reflexivity.
  - reflexivity.
Defined.

(** ** The resolver and the order of enumeration *)

Lemma newest_first_seen_max {A : Type} (key : A -> Z) (xs : list A) (f : A) :
  newest_first_seen key xs f ->
  f ∈ xs /\ Forall (fun g => (key g <= key f)%Z) xs.
Proof.
  intros (pre & post & -> & Hpre & Hpost). split.
  - apply elem_of_app. right. by left.
  - apply Forall_app. split.
    + eapply Forall_impl; [exact Hpre|]. simpl. intros. lia.
    + constructor; [lia | done].
Qed.

Lemma NoDup_map_elem_inj {A : Type} (key : A -> Z) (xs : list A) (f g : A) :
  NoDup (map key xs) -> f ∈ xs -> g ∈ xs -> key f = key g -> f = g.
Proof.
  induction xs as [|x xs IH]; intros Hnd Hf Hg Hk.
  - by apply elem_of_nil in Hf.
  - simpl in Hnd. apply NoDup_cons in Hnd as [Hfresh Hnd].
    apply elem_of_cons in Hf as [-> | Hf]; apply elem_of_cons in Hg as [-> | Hg].
    + done.
    + destruct Hfresh. rewrite Hk. apply list_elem_of_In, in_map. by apply list_elem_of_In.
    + destruct Hfresh. rewrite <- Hk. apply list_elem_of_In, in_map. by apply list_elem_of_In.
    + by apply IH.
Qed.

(** X10. When no two matches share a modification time, the order in
    which the host enumerates them plays no role: two hosts that list the
    same files with the same times, in any order, resolve to the same
    file. *)
Theorem resolver_order_irrelevant (H1 H2 : HostOS) (cfg : Config) :
  let m1 := @glob H1 (@path_join H1 (@expandvars H1 (log_dir cfg)) (log_pattern cfg)) in
  let m2 := @glob H2 (@path_join H2 (@expandvars H2 (log_dir cfg)) (log_pattern cfg)) in
  m1 ≡ₚ m2 ->
  (forall f, f ∈ m1 -> @getmtime H1 f = @getmtime H2 f) ->
  NoDup (map (@getmtime H1) m1) ->
  @get_latest_log_file H1 cfg = @get_latest_log_file H2 cfg.
Proof.
  intros m1 m2 Hperm Htimes Hnd. unfold get_latest_log_file. fold m1 m2.
  clearbody m1 m2. destruct m1 as [|x xs].
  - apply Permutation_nil_l in Hperm. by rewrite <- Hperm.
  - destruct m2 as [|y ys]; [by apply Permutation_nil_r in Hperm|].
    destruct (py_max_spec (@getmtime H1) x xs) as (f1 & -> & Hf1).
    destruct (py_max_spec (@getmtime H2) y ys) as (f2 & -> & Hf2).
    apply newest_first_seen_max in Hf1 as [Hin1 Hmax1].
    apply newest_first_seen_max in Hf2 as [Hin2 Hmax2].
    rewrite Forall_forall in Hmax1, Hmax2.
    assert (f2 ∈ x :: xs) as Hin2' by by rewrite Hperm.
    assert (f1 ∈ y :: ys) as Hin1' by by rewrite <- Hperm.
    f_equal. apply (NoDup_map_elem_inj (@getmtime H1) (x :: xs)); try done.
    pose proof (Hmax1 f2 Hin2') as Ha. pose proof (Hmax2 f1 Hin1') as Hb.
    rewrite <- !Htimes in Hb by done. lia.
Qed.

Lemma resolver_order_irrelevant_witness :
  @get_latest_log_file newer_host sample_config
  = @get_latest_log_file reversed_host sample_config.
Proof.
  apply (resolver_order_irrelevant newer_host reversed_host sample_config).
  - apply perm_swap.
  - intros f _. reflexivity.
  - vm_compute. apply (bool_decide_unpack _). vm_compute. exact I.
Defined.

(** ** More on the forwarder *)

Section ForwarderMore.
Context {N C : Type} `{Discord N C}.

(** The guarded block sends at most one embed, and that one describes the
    item at hand. *)
Lemma handle_item_sent (channel : C) (it : item) (b : Bot N) :
  exists tr,
    out (handle_item channel it b) = out b ++ tr /\
    dequeued tr = [] /\
    (sent tr = [] \/ exists c, sent tr = [mkEmbed (fst it) c]).
Proof.
  unfold handle_item, try_send. destruct (hex_to_int (snd it)) as [e | c].
  - exists [EvPrint send_error (Some e)]. split; [done|]. split; [done | by left].
  - destruct (channel_send (conn b) channel (mkEmbed (fst it) c)) as [n' [e|]].
    + exists [EvSend (mkEmbed (fst it) c); EvPrint send_error (Some e)].
      cbn [emit out set_conn]. rewrite <- app_assoc. split; [done|]. split; [done|].
      right. by exists c.
    + exists [EvSend (mkEmbed (fst it) c)]. split; [done|]. split; [done|].
      right. by exists c.
Qed.

Lemma forward_iter_sent (channel : C) (b : Bot N) (w : World) :
  exists tr,
    out (fst (forward_iter channel b w)) = out b ++ tr /\
    map description (sent tr) `sublist_of` map fst (dequeued tr).
Proof.
  unfold forward_iter, queue_get_nowait. destruct (queue w) as [|it rest]; cbn [fst].
  - exists [EvSleep 1]. split; [done | constructor].
  - destruct (handle_item_sent channel it (emit (EvGet it) b)) as (tr & Ho & Hd & Hs).
    exists (EvGet it :: tr). cbn [emit out] in Ho. rewrite Ho, <- app_assoc.
    split; [done|]. cbn [sent dequeued]. rewrite Hd.
    destruct Hs as [-> | [c ->]]; simpl.
    + apply sublist_nil_l.
    + by apply sublist_skip.
Qed.

(** X11. The forwarder never sends a message it did not take from the
    queue, and never sends one twice: over any number of passes, the
    descriptions sent are, in order, among the messages dequeued in those
    passes. *)
Theorem forwarder_sends_only_dequeued (fuel : nat) (channel : C) (b : Bot N) (w : World) :
  exists tr,
    out (forward_loop fuel channel b w).1.2 = out b ++ tr /\
    map description (sent tr) `sublist_of` map fst (dequeued tr).
Proof.
  revert b w. induction fuel as [|fuel IH]; intros b w; simpl.
  - exists []. rewrite app_nil_r. destruct (is_closed b); split; done || constructor.
  - destruct (is_closed b).
    + exists []. rewrite app_nil_r. split; [done | constructor].
    + destruct (forward_iter_sent channel b w) as (tr1 & Ho1 & Hs1).
      destruct (forward_iter channel b w) as [b1 w1]. cbn [fst] in Ho1.
      destruct (IH b1 w1) as (tr2 & Ho2 & Hs2).
      exists (tr1 ++ tr2). rewrite Ho2, Ho1, <- app_assoc. split; [done|].
      rewrite sent_app, dequeued_app, !map_app. by apply sublist_app.
Qed.

Lemma fold_handle_dequeued (channel : C) (its : list item) (b : Bot N) :
  dequeued (out (fold_left (fun b it => handle_item channel it (emit (EvGet it) b)) its b))
  = dequeued (out b) ++ its.
Proof.
  revert b. induction its as [|it its IH]; intros b; simpl.
  - by rewrite app_nil_r.
  - rewrite IH.
    destruct (handle_item_trace channel it (emit (EvGet it) b)) as (tr & -> & Hd & _).
    cbn [emit out]. rewrite !dequeued_app, Hd. simpl.
    by rewrite app_nil_r, <- app_assoc.
Qed.

(** X12. However many items wait in the queue, an open forwarder given
    one pass per item takes exactly the oldest ones, in queue order, and
    leaves the rest queued; the files and the widget are not its
    business. *)
Theorem forwarder_drains_in_order (channel : C) (b : Bot N) (w : World)
    (its rest : list item) :
  is_closed b = false ->
  queue w = its ++ rest ->
  let '(status, b', w') := forward_loop (length its) channel b w in
  status = Running /\
  dequeued (out b') = dequeued (out b) ++ its /\
  queue w' = rest /\
  files w' = files w /\
  widget w' = widget w.
Proof.
  intros Hc Hq. rewrite (forward_loop_drain channel its b w rest Hc Hq).
  cbn [queue files widget]. by rewrite fold_handle_dequeued.
Qed.

(** X13. With nothing queued, an open forwarder only sleeps: [n] passes
    are [n] sleeps of one second; nothing is sent and the queue stays
    empty. *)
Theorem forwarder_idles_on_empty_queue (n : nat) (channel : C) (b : Bot N) (w : World) :
  is_closed b = false ->
  queue w = [] ->
  forward_loop n channel b w
  = (Running, mkBot (conn b) false (out b ++ replicate n (EvSleep 1)), w).
Proof.
  revert b. induction n as [|n IH]; intros b Hc Hq.
  - simpl. rewrite Hc, app_nil_r. destruct b; simpl in *. by subst.
  - rewrite forward_loop_step by done.
    unfold forward_iter, queue_get_nowait. rewrite Hq. cbn [fst snd].
    rewrite IH by done. cbn [emit conn out replicate]. by rewrite <- app_assoc.
Qed.

End ForwarderMore.

Lemma forwarder_drains_in_order_witness :
  let '(status, b', w') :=
    @forward_loop _ _ flaky_discord (length [item_bad; item_A]) 42%Z idle_bot
      (queue_put item_B (queue_put item_A (queue_put item_bad (fresh_world noon_clock)))) in
  status = Running /\
  dequeued (out b') = dequeued (out idle_bot) ++ [item_bad; item_A] /\
  queue w' = [item_B] /\
  files w' = files (queue_put item_B (queue_put item_A (queue_put item_bad
                                                         (fresh_world noon_clock)))) /\
  widget w' = widget (queue_put item_B (queue_put item_A (queue_put item_bad
                                                           (fresh_world noon_clock)))).
Proof.
  apply (@forwarder_drains_in_order _ _ flaky_discord 42%Z idle_bot
           (queue_put item_B (queue_put item_A (queue_put item_bad (fresh_world noon_clock))))
           [item_bad; item_A] [item_B]).
  - reflexivity.
  - reflexivity.
Defined.

Lemma forwarder_idles_on_empty_queue_witness :
  @forward_loop _ _ flaky_discord 4 42%Z idle_bot (fresh_world noon_clock)
  = (Running, mkBot (conn idle_bot) false (out idle_bot ++ replicate 4 (EvSleep 1)),
     fresh_world noon_clock).
Proof.
  apply (@forwarder_idles_on_empty_queue _ _ flaky_discord 4 42%Z idle_bot
           (fresh_world noon_clock)).
  - reflexivity.
  - reflexivity.
Defined.

(** ** Colours *)

(** A hexadecimal digit is no blank, sign, underscore, ['#'] or ['x']. *)
Lemma hex_digit_plain (a : ascii) (d : Z) :
  PyInt.digit_in 16 a = Some d ->
  PyInt.is_space a = false /\
  Ascii.eqb a "_" = false /\
  Ascii.eqb a "#" = false /\
  Ascii.eqb a "x" = false /\
  Ascii.eqb a "X" = false /\
  Ascii.eqb a "+" = false /\
  Ascii.eqb a "-" = false /\
  (0 <= d < 16)%Z.
Proof.
  intros Hd.
  destruct a as [[] [] [] [] [] [] [] []]; vm_compute in Hd; try discriminate Hd;
    injection Hd as <-; repeat split; reflexivity || discriminate.
Qed.

Lemma scan_hex_digits (s : string) :
  all_hex s = true ->
  forall (n : nat) (acc : Z),
  exists v,
    PyInt.scan_digits 16 s false n acc
      = Some ((acc * 16 ^ Z.of_nat (String.length s) + v)%Z,
              (n + String.length s)%nat, EmptyString) /\
    (0 <= v < 16 ^ Z.of_nat (String.length s))%Z.
Proof.
  induction s as [|a s IH]; intros Hall n acc.
  - exists 0%Z. simpl. split; [|lia]. f_equal. f_equal. f_equal; lia.
  - cbn [all_hex] in Hall. destruct (PyInt.digit_in 16 a) as [d|] eqn:Hd; [|done].
    destruct (hex_digit_plain a d Hd) as (_ & Hus & _ & _ & _ & _ & _ & Hrange).
    cbn [PyInt.scan_digits]. rewrite Hus, Hd.
    destruct (IH Hall (S n) (acc * 16 + d)%Z) as (v & -> & Hv).
    exists (d * 16 ^ Z.of_nat (String.length s) + v)%Z.
    cbn [String.length]. rewrite Nat2Z.inj_succ, Z.pow_succ_r by lia.
    split; [f_equal; f_equal; f_equal; [ring | lia] | nia].
Qed.

(** On a string of hexadecimal digits [int(s, 16)] has only the digit
    scan to do. *)
Lemma py_int_hex_front (a : ascii) (s : string) :
  all_hex (String a s) = true ->
  PyInt.py_int (String a s) 16 =
  match PyInt.scan_digits 16 (String a s) false 0 0%Z with
  | Some (v, n, rest) =>
      if (n =? 0)%nat then None
      else match PyInt.skip_spaces rest with
           | EmptyString => Some v
           | _ => None
           end
  | None => None
  end.
Proof.
  intros Hall. cbn [all_hex] in Hall.
  destruct (PyInt.digit_in 16 a) as [d|] eqn:Hd; [|done].
  destruct s as [|x s].
  - destruct a as [[] [] [] [] [] [] [] []]; vm_compute in Hd; try discriminate Hd;
      reflexivity.
  - cbn [all_hex] in Hall. destruct (PyInt.digit_in 16 x) as [dx|] eqn:Hx; [|done].
    destruct (hex_digit_plain x dx Hx) as (_ & _ & _ & Hlow & Hup & _ & _ & _).
    destruct a as [[] [] [] [] [] [] [] []]; vm_compute in Hd; try discriminate Hd;
      try reflexivity.
    assert (PyInt.strip_prefix 16 (String "0" (String x s)) = String "0" (String x s))
      as Hprefix.
    { unfold PyInt.strip_prefix. simpl. by rewrite Hlow, Hup. }
    unfold PyInt.py_int.
    change (PyInt.skip_spaces (String "0" (String x s))) with (String "0" (String x s)).
    change (PyInt.strip_sign (String "0" (String x s))) with (false, String "0" (String x s)).
    cbv beta iota. rewrite Hprefix. reflexivity.
Qed.

Lemma py_int_all_hex (s : string) :
  all_hex s = true ->
  s ≠ "" ->
  exists v,
    PyInt.py_int s 16 = Some v /\ (0 <= v < 16 ^ Z.of_nat (String.length s))%Z.
Proof.
  intros Hall Hne. destruct s as [|a s]; [done|].
  rewrite py_int_hex_front by done.
  destruct (scan_hex_digits (String a s) Hall 0 0%Z) as (v & -> & Hv).
  exists v. split; [|done]. cbn [String.length Nat.add Nat.eqb PyInt.skip_spaces].
  f_equal; lia.
Qed.

Lemma lstrip_hex (s : string) :
  all_hex s = true -> PyStr.lstrip "#" s = s.
Proof.
  destruct s as [|a s]; [done|]. cbn [all_hex]. intros Hall.
  destruct (PyInt.digit_in 16 a) as [d|] eqn:Hd; [|done].
  destruct (hex_digit_plain a d Hd) as (_ & _ & Hhash & _).
  cbn [PyStr.lstrip]. by rewrite Hhash.
Qed.

Section Colours.
Context {N C : Type} `{Discord N C}.

(** X14. A colour written as hexadecimal digits, with or without the
    leading ['#'], always converts: the value lies below 16 to the number
    of digits (below 2^24 for RRGGBB), and the item goes out as one embed
    with the message as description and that value as colour. *)
Theorem hex_colour_is_sent (channel : C) (b : Bot N) (message s : string) :
  all_hex s = true ->
  s ≠ "" ->
  exists v,
    (0 <= v < 16 ^ Z.of_nat (String.length s))%Z /\
    hex_to_int (JStr s) = inr v /\
    hex_to_int (JStr (String "#" s)) = inr v /\
    sent (out (handle_item channel (message, JStr (String "#" s)) b))
      = sent (out b) ++ [mkEmbed message v].
Proof.
  intros Hall Hne. destruct (py_int_all_hex s Hall Hne) as (v & Hint & Hv).
  assert (hex_to_int (JStr (String "#" s)) = inr v) as Hhash.
  { unfold hex_to_int. cbn [PyStr.lstrip]. rewrite Ascii.eqb_refl.
    by rewrite lstrip_hex, Hint. }
  exists v. split; [done|]. split; [|split; [done|]].
  - unfold hex_to_int. by rewrite lstrip_hex, Hint.
  - unfold handle_item, try_send. cbn [fst snd]. rewrite Hhash.
    destruct (channel_send (conn b) channel (mkEmbed message v)) as [n' [e|]];
      cbn [emit out set_conn]; rewrite ?sent_app; simpl; by rewrite ?app_nil_r.
Qed.

(** X15. A colour that is present but is no string (a JSON [null], a
    number) is taken as it is: the matched line is shown and queued with
    it, and the forwarder then drops the item on the [AttributeError] of
    the conversion, sending nothing. *)
Theorem non_string_colour_is_dropped (cfg : Config) (line : string) (w : World)
    (pre post : list (string * gmap string json)) (k : string) (d : gmap string json)
    (j : json) (channel : C) (b : Bot N) :
  event_configs cfg = pre ++ (k, d) :: post ->
  no_key_occurs pre line ->
  occurs_in k line ->
  py_truthy (dict_get (discord_config cfg) "enabled" (JBool false)) = true ->
  d !! "color" = Some j ->
  (forall s, j ≠ JStr s) ->
  queue w = [] ->
  let w1 := process_line cfg line w in
  let b2 := fst (forward_iter channel b w1) in
  let w2 := snd (forward_iter channel b w1) in
  widget w1 = widget w ++ [(record_text line w, k)] /\
  queue w1 = [(record_text line w, j)] /\
  out b2 = out b ++ [EvGet (record_text line w, j);
                     EvPrint send_error (Some (AttributeError "lstrip"))] /\
  conn b2 = conn b /\
  queue w2 = [].
Proof.
  intros Hsplit Hpre Hocc Hen Hcol Hj Hq w1 b2 w2.
  assert (process_line cfg line w = dispatch cfg k d line w) as Hdisp.
  { unfold process_line. by rewrite Hsplit, process_events_first. }
  assert (queue w1 = [(record_text line w, j)]) as Hq1.
  { unfold w1. rewrite Hdisp, dispatch_queue, Hen, Hq. unfold dict_get. by rewrite Hcol. }
  split; [unfold w1; rewrite Hdisp; apply dispatch_widget|]. split; [done|].
  unfold b2, w2, forward_iter, queue_get_nowait. rewrite Hq1. cbn [fst snd queue].
  unfold handle_item, try_send. cbn [snd].
  assert (hex_to_int j = inl (AttributeError "lstrip")) as ->.
  { destruct j; try done. by destruct (Hj s). }
  cbn [emit out conn]. by rewrite <- app_assoc.
Qed.

End Colours.

Lemma hex_colour_is_sent_witness :
  exists v,
    (0 <= v < 16 ^ Z.of_nat (String.length "00ff7F"))%Z /\
    hex_to_int (JStr "00ff7F") = inr v /\
    hex_to_int (JStr (String "#" "00ff7F")) = inr v /\
    sent (out (@handle_item _ _ flaky_discord 42%Z ("A", JStr (String "#" "00ff7F")) idle_bot))
      = sent (out idle_bot) ++ [mkEmbed "A" v].
Proof.
  apply (@hex_colour_is_sent _ _ flaky_discord 42%Z idle_bot "A" "00ff7F").
  - reflexivity.
  - discriminate.
Defined.

Lemma non_string_colour_is_dropped_witness :
  let w1 := process_line catch_all_config left_line (fresh_world noon_clock) in
  let b2 := fst (@forward_iter _ _ flaky_discord 42%Z idle_bot w1) in
  let w2 := snd (@forward_iter _ _ flaky_discord 42%Z idle_bot w1) in
  widget w1 = widget (fresh_world noon_clock)
              ++ [(record_text left_line (fresh_world noon_clock), "OnPlayerLeft")] /\
  queue w1 = [(record_text left_line (fresh_world noon_clock), JNull)] /\
  out b2 = out idle_bot ++ [EvGet (record_text left_line (fresh_world noon_clock), JNull);
                            EvPrint send_error (Some (AttributeError "lstrip"))] /\
  conn b2 = conn idle_bot /\
  queue w2 = [].
Proof.
  apply (@non_string_colour_is_dropped _ _ flaky_discord catch_all_config left_line
           (fresh_world noon_clock) [] [("", ∅)] "OnPlayerLeft" {[ "color" := JNull ]} JNull
           42%Z idle_bot).
  - reflexivity.
  - constructor.
  - apply str_in_spec. reflexivity.
  - reflexivity.
  - reflexivity.
  - discriminate.
  - reflexivity.
Defined.

(** ** The monitor thread *)

Lemma drop_empty (n : nat) : PyStr.drop n "" = "".
Proof. by destruct n. Qed.

Lemma drop_drop (a b : nat) (s : string) :
  PyStr.drop b (PyStr.drop a s) = PyStr.drop (a + b) s.
Proof.
  revert s. induction a as [|a IH]; intros s; simpl; [done|].
  destruct s as [|c s]; [by rewrite drop_empty | apply IH].
Qed.

Lemma drop_all (s : string) : PyStr.drop (String.length s) s = "".
Proof. induction s as [|c s IH]; simpl; done. Qed.

Lemma drop_app_le (n : nat) (s t : string) :
  n <= String.length s -> PyStr.drop n (s +:+ t) = PyStr.drop n s +:+ t.
Proof.
  revert s. induction n as [|n IH]; intros s Hn; simpl.
  - by destruct s, t.
  - destruct s as [|c s]; simpl in *; [lia|]. apply IH. lia.
Qed.

Lemma length_app_string (a b : string) :
  String.length (a +:+ b) = String.length a + String.length b.
Proof. induction a as [|x a IH]; simpl; [done | by f_equal]. Qed.

Lemma take_line_split (s : string) :
  s = take_line s +:+ PyStr.drop (String.length (take_line s)) s.
Proof.
  induction s as [|c s IH]; simpl; [done|].
  destruct (Ascii.eqb c "010"); simpl; [by destruct s | by f_equal].
Qed.

Lemma take_line_length (s : string) : String.length (take_line s) <= String.length s.
Proof.
  induction s as [|c s IH]; simpl; [done|].
  destruct (Ascii.eqb c "010"); simpl; lia.
Qed.

Lemma grows_le (env : nat -> Env) (path : string) (i k : nat) :
  grows env path -> i <= k ->
  exists more, env_source (env k) path = env_source (env i) path +:+ more.
Proof.
  intros Hg Hle. induction Hle as [|k Hle [more IH]].
  - exists "". by rewrite append_empty_r.
  - destruct (Hg k) as [more' Hk]. exists (more +:+ more').
    by rewrite Hk, IH, append_assoc.
Qed.

(** The world the second loop leaves is the one [process_line] makes of
    the lines read, and the positions agree. *)
Lemma tail_loop_lines fuel env cfg i path pos w :
  (tail_loop fuel env cfg i path pos w).2
    = process_lines cfg (tail_lines fuel env i path pos).1 w /\
  (tail_loop fuel env cfg i path pos w).1.2 = (tail_lines fuel env i path pos).2.
Proof.
  revert i pos w. induction fuel as [|fuel IH]; intros i pos w; simpl.
  - by destruct (env_stop (env i)).
  - destruct (env_stop (env i)); [done|].
    destruct (String.eqb (readline (env_source (env i) path) pos) ""); [apply IH|].
    destruct (IH (S i) (pos + String.length (readline (env_source (env i) path) pos))
                (process_line cfg (readline (env_source (env i) path) pos) w)) as [Hw Hp].
    destruct (tail_lines fuel env (S i) path _) as [lines pos']. simpl in *. done.
Qed.

Lemma length_drop_le (pos : nat) (s : string) :
  pos <= String.length s -> String.length (PyStr.drop pos s) + pos = String.length s.
Proof.
  revert s. induction pos as [|p IH]; intros s Hs; simpl; [lia|].
  destruct s as [|c s]; simpl in *; [lia|]. specialize (IH s). lia.
Qed.

Lemma readline_split (content : string) (pos : nat) :
  PyStr.drop pos content
  = readline content pos
    +:+ PyStr.drop (pos + String.length (readline content pos)) content.
Proof.
  unfold readline. rewrite <- drop_drop. apply take_line_split.
Qed.

Lemma readline_within (content : string) (pos : nat) :
  pos <= String.length content ->
  pos + String.length (readline content pos) <= String.length content.
Proof.
  intros Hpos. unfold readline.
  pose proof (take_line_length (PyStr.drop pos content)).
  pose proof (length_drop_le pos content Hpos). lia.
Qed.

(** The lines read, end to end, are the text that follows the starting
    position in every later state of a growing file. *)
Lemma tail_lines_text (fuel : nat) (env : nat -> Env) (path : string) (k : nat) :
  grows env path ->
  forall i pos,
    pos <= String.length (env_source (env i) path) ->
    i + fuel <= k ->
    exists rest,
      PyStr.drop pos (env_source (env k) path)
      = join (tail_lines fuel env i path pos).1 +:+ rest.
Proof.
  intros Hg. induction fuel as [|fuel IH]; intros i pos Hpos Hk; simpl.
  - destruct (env_stop (env i)); by eexists.
  - destruct (env_stop (env i)); [by eexists|].
    destruct (grows_le env path i (S i) Hg ltac:(lia)) as [m1 Hm1].
    destruct (String.eqb_spec (readline (env_source (env i) path) pos) "") as [He | Hne].
    + apply IH; [|lia]. rewrite Hm1, length_app_string. lia.
    + set (line := readline (env_source (env i) path) pos) in *.
      pose proof (readline_within _ _ Hpos) as Hin. fold line in Hin.
      destruct (IH (S i) (pos + String.length line)) as [rest Hrest];
        [rewrite Hm1, length_app_string; lia | lia |].
      destruct (tail_lines fuel env (S i) path (pos + String.length line))
        as [lines pos'] eqn:Et. cbn [fst] in *.
      destruct (grows_le env path i k Hg ltac:(lia)) as [mk Hmk].
      exists rest. unfold join. cbn [fold_right]. fold (join lines).
      rewrite append_assoc, <- Hrest, <- drop_drop.
      rewrite Hmk, drop_app_le by done.
      rewrite (readline_split (env_source (env i) path) pos) at 1. fold line.
      rewrite append_assoc. f_equal.
      rewrite (readline_split (env_source (env i) path) pos) at 1. fold line.
      by rewrite append_assoc, drop_append.
Qed.


Lemma growing_env_grows : grows growing_env "output_log_02.txt".
Proof.
  intros i. unfold growing_env. cbn [env_source].
  destruct (i <? 3) eqn:Hi, (S i <? 3) eqn:Hs.
  - exists "". by rewrite append_empty_r.
  - exists sample_line. by rewrite append_assoc.
  - apply Nat.ltb_ge in Hi. apply Nat.ltb_lt in Hs. lia.
  - exists "". by rewrite append_empty_r.
Qed.

(** While the stop event is unset and the resolver finds nothing, the
    first loop keeps turning. *)
Lemma wait_loop_waits (env : nat -> Env) (cfg : Config) (n : nat) :
  forall fuel i p0,
    (forall j, i <= j < i + n ->
               env_stop (env j) = false /\
               path_truthy (@get_latest_log_file (env_host (env j)) cfg) = false) ->
    path_truthy p0 = false ->
    n <= fuel ->
    exists p,
      path_truthy p = false /\
      wait_loop fuel env cfg i p0 = wait_loop (fuel - n) env cfg (i + n) p.
Proof.
  induction n as [|n IH]; intros fuel i p0 Hquiet Hp0 Hfuel.
  - exists p0. by rewrite Nat.sub_0_r, Nat.add_0_r.
  - destruct fuel as [|fuel]; [lia|].
    destruct (Hquiet i ltac:(lia)) as [Hstop Hnone].
    destruct (IH fuel (S i) (@get_latest_log_file (env_host (env i)) cfg))
      as (p & Hp & Heq); [intros j Hj; apply Hquiet; lia | done | lia |].
    exists p. split; [done|]. cbn [wait_loop]. rewrite Hstop, Hnone, Heq.
    by replace (S i + n) with (i + S n) by lia.
Qed.

(** X17. If no log file shows up before the stop event is set, [run]
    prints that no log file was found and returns; it reads no file and
    leaves the world as it was. *)
Theorem run_without_log_file (fuel : nat) (env : nat -> Env) (cfg : Config) (w : World)
    (n : nat) :
  (forall j, j < n ->
             env_stop (env j) = false /\
             path_truthy (@get_latest_log_file (env_host (env j)) cfg) = false) ->
  env_stop (env n) = true ->
  n <= fuel ->
  run fuel env cfg w = (Returned, ["No log file found."], w).
Proof.
  intros Hquiet Hstop Hfuel. unfold run.
  destruct (wait_loop_waits env cfg n fuel 0 None) as (p & Hp & ->);
    [intros j Hj; apply Hquiet; lia | done | done |].
  cbn [Nat.add].
  assert (wait_loop (fuel - n) env cfg n p = Some (p, n)) as ->.
  { destruct (fuel - n); simpl; by rewrite Hstop. }
  destruct p as [path|]; [|done]. by rewrite Hp.
Qed.

Lemma run_without_log_file_witness :
  run 5 barren_env sample_config (fresh_world noon_clock)
  = (Returned, ["No log file found."], fresh_world noon_clock).
Proof.
  apply (run_without_log_file 5 barren_env sample_config (fresh_world noon_clock) 2).
  - intros j Hj. destruct j as [|[|j]]; [by split | by split | lia].
  - reflexivity.
  - lia.
Defined.

(** X18. [run] never replays history.  Once the resolver has found the
    log at some turn, with the stop event unset until then, all that is
    ever processed is text appended after that turn: in every later state
    the file is its text at that turn, then the lines processed, then what
    is still unread. *)
Theorem run_skips_history (fuel : nat) (env : nat -> Env) (cfg : Config) (w : World)
    (path : string) (n k : nat) :
  (forall j, j < n ->
             env_stop (env j) = false /\
             path_truthy (@get_latest_log_file (env_host (env j)) cfg) = false) ->
  env_stop (env n) = false ->
  @get_latest_log_file (env_host (env n)) cfg = Some path ->
  path ≠ "" ->
  n < fuel ->
  grows env path ->
  S n + fuel <= k ->
  exists status lines rest,
    run fuel env cfg w
    = (status, ["Monitoring log file: " +:+ path], process_lines cfg lines w) /\
    env_source (env k) path = env_source (env n) path +:+ join lines +:+ rest.
Proof.
  intros Hquiet Hstop Hfound Hpath Hfuel Hg Hk. unfold run.
  destruct (wait_loop_waits env cfg n fuel 0 None) as (p & Hp & ->);
    [intros j Hj; apply Hquiet; lia | done | lia |].
  cbn [Nat.add].
  assert (path_truthy (Some path) = true) as Htruthy.
  { simpl. by destruct (String.eqb_spec path ""). }
  assert (wait_loop (fuel - n) env cfg n p = Some (Some path, n)) as ->.
  { destruct (fuel - n) as [|f] eqn:Ef; [lia|]. simpl. by rewrite Hstop, Hfound, Htruthy. }
  rewrite Htruthy.
  set (pos := String.length (env_source (env n) path)).
  destruct (tail_loop_lines fuel env cfg (S n) path pos w) as [Hw _].
  destruct (tail_lines_text fuel env path k Hg (S n) pos) as [rest Hrest]; [|done|].
  { destruct (grows_le env path n (S n) Hg ltac:(lia)) as [m ->].
    unfold pos. rewrite length_app_string. lia. }
  destruct (tail_loop fuel env cfg (S n) path pos w) as [[status pos'] w'].
  cbn [snd] in Hw. subst w'.
  exists status, (tail_lines fuel env (S n) path pos).1, rest. split; [done|].
  destruct (grows_le env path n k Hg ltac:(lia)) as [mk Hmk].
  rewrite Hmk in Hrest |- *. unfold pos in Hrest. rewrite drop_append in Hrest.
  by rewrite Hrest.
Qed.

Lemma run_skips_history_witness :
  exists status lines rest,
    run 8 growing_env sample_config (fresh_world noon_clock)
    = (status, ["Monitoring log file: " +:+ "output_log_02.txt"],
       process_lines sample_config lines (fresh_world noon_clock)) /\
    env_source (growing_env 9) "output_log_02.txt"
    = env_source (growing_env 0) "output_log_02.txt" +:+ join lines +:+ rest.
Proof.
  apply (run_skips_history 8 growing_env sample_config (fresh_world noon_clock)
           "output_log_02.txt" 0 9).
  - intros j Hj. lia.
  - reflexivity.
  - reflexivity.
  - discriminate.
  - lia.
  - apply growing_env_grows.
  - lia.
Defined.

Lemma str_in_nl_cons (c : ascii) (body : string) :
  PyStr.str_in nl (String c body) = false <->
  Ascii.eqb c "010" = false /\ PyStr.str_in nl body = false.
Proof.
  rewrite str_in_unfold. unfold nl. cbn [PyStr.starts_with].
  rewrite (Ascii.eqb_sym "010" c). destruct (Ascii.eqb c "010"); simpl.
  - split; [done | by intros [? _]].
  - by destruct body; simpl; split; [|intros [_ ?]|split|intros [_ ?]].
Qed.

Lemma take_line_shape (s : string) :
  exists body,
    PyStr.str_in nl body = false /\ (take_line s = body \/ take_line s = body +:+ nl).
Proof.
  induction s as [|c s (body & Hb & IH)].
  - exists "". split; [done | by left].
  - cbn [take_line]. destruct (Ascii.eqb c "010") eqn:Hc.
    + apply Ascii.eqb_eq in Hc as ->. exists "". split; [done | by right].
    + exists (String c body). split; [by apply str_in_nl_cons|].
      destruct IH as [-> | ->]; [by left | by right].
Qed.

Lemma take_line_whole (body t : string) :
  PyStr.str_in nl body = false ->
  take_line body = body /\ take_line (body +:+ nl +:+ t) = body +:+ nl.
Proof.
  induction body as [|c body IH]; intros Hb.
  - done.
  - apply str_in_nl_cons in Hb as [Hc Hb]. destruct (IH Hb) as [H1 H2]. split.
    + cbn [take_line]. by rewrite Hc, H1.
    + change (String c body +:+ nl +:+ t) with (String c (body +:+ nl +:+ t)).
      cbn [take_line]. by rewrite Hc, H2.
Qed.

(** X19. Each text the tail loop hands to [process_line] is a single
    line: it is not empty and holds at most one line feed, its last
    character.  Two lines are never processed as one. *)
Theorem tail_lines_are_single (fuel : nat) (env : nat -> Env) (i : nat) (path : string)
    (pos : nat) :
  Forall single_line (tail_lines fuel env i path pos).1.
Proof.
  revert i pos. induction fuel as [|fuel IH]; intros i pos; simpl.
  - destruct (env_stop (env i)); constructor.
  - destruct (env_stop (env i)); [constructor|].
    destruct (String.eqb_spec (readline (env_source (env i) path) pos) "") as [He | Hne];
      [apply IH|].
    specialize (IH (S i) (pos + String.length (readline (env_source (env i) path) pos))).
    destruct (tail_lines fuel env (S i) path _) as [lines pos']. cbn [fst] in *.
    constructor; [|done]. split; [done|]. apply take_line_shape.
Qed.

Lemma process_line_no_match cfg line w :
  no_key_occurs (event_configs cfg) line -> process_line cfg line w = w.
Proof.
  intros Hnone. unfold process_line.
  destruct (process_events_cases cfg (event_configs cfg) line w)
    as [[_ Heq] | (pre & k & d & post & Hsplit & _ & Hocc & _)]; [done|].
  rewrite Hsplit in Hnone. by apply no_key_occurs_app in Hnone.
Qed.

(** X20. The tail loop does not wait for the end of a line.  When the
    writer's line reaches the file in two pieces and a turn of the loop
    falls in between, the pieces are processed as two lines; if no
    configured key occurs within either piece, the world stays as it was,
    whatever key the pieces spell together. *)
Theorem split_line_is_read_as_two (fuel : nat) (env : nat -> Env) (cfg : Config)
    (i : nat) (path : string) (w : World) (before piece1 body2 after : string) :
  env_stop (env i) = false ->
  env_stop (env (S i)) = false ->
  env_source (env i) path = before +:+ piece1 ->
  env_source (env (S i)) path = before +:+ piece1 +:+ body2 +:+ nl +:+ after ->
  piece1 ≠ "" ->
  PyStr.str_in nl piece1 = false ->
  PyStr.str_in nl body2 = false ->
  let pos' := String.length before + String.length piece1 + String.length (body2 +:+ nl) in
  tail_loop (S (S fuel)) env cfg i path (String.length before) w
  = tail_loop fuel env cfg (S (S i)) path pos'
      (process_line cfg (body2 +:+ nl) (process_line cfg piece1 w)) /\
  (no_key_occurs (event_configs cfg) piece1 ->
   no_key_occurs (event_configs cfg) (body2 +:+ nl) ->
   tail_loop (S (S fuel)) env cfg i path (String.length before) w
   = tail_loop fuel env cfg (S (S i)) path pos' w).
Proof.
  intros Hs0 Hs1 Hsrc0 Hsrc1 Hne Hnl1 Hnl2 pos'.
  assert (readline (env_source (env i) path) (String.length before) = piece1) as Hr0.
  { unfold readline. rewrite Hsrc0, drop_append. by apply take_line_whole. }
  assert (readline (env_source (env (S i)) path)
            (String.length before + String.length piece1) = body2 +:+ nl) as Hr1.
  { unfold readline. rewrite Hsrc1, <- drop_drop, !drop_append.
    by apply take_line_whole. }
  assert (tail_loop (S (S fuel)) env cfg i path (String.length before) w
          = tail_loop fuel env cfg (S (S i)) path pos'
              (process_line cfg (body2 +:+ nl) (process_line cfg piece1 w))) as Hloop.
  { cbn [tail_loop]. rewrite Hs0, Hr0.
    destruct (String.eqb_spec piece1 "") as [|_]; [done|].
    rewrite Hs1, Hr1.
    destruct (String.eqb_spec (body2 +:+ nl) "") as [He|_]; [|done].
    by destruct body2. }
  split; [exact Hloop|]. intros Hk1 Hk2.
  by rewrite Hloop, (process_line_no_match cfg piece1), (process_line_no_match cfg _).
Qed.

Lemma split_line_is_read_as_two_witness :
  let pos' := String.length ("old line" +:+ nl) + String.length "12:00:00 OnPlayer"
              + String.length ("Joined User123" +:+ nl) in
  tail_loop (S (S 3)) split_env ready_config 0 "output_log_02.txt"
            (String.length ("old line" +:+ nl)) (fresh_world noon_clock)
  = tail_loop 3 split_env ready_config 2 "output_log_02.txt" pos'
      (process_line ready_config ("Joined User123" +:+ nl)
         (process_line ready_config "12:00:00 OnPlayer" (fresh_world noon_clock))) /\
  (no_key_occurs (event_configs ready_config) "12:00:00 OnPlayer" ->
   no_key_occurs (event_configs ready_config) ("Joined User123" +:+ nl) ->
   tail_loop (S (S 3)) split_env ready_config 0 "output_log_02.txt"
             (String.length ("old line" +:+ nl)) (fresh_world noon_clock)
   = tail_loop 3 split_env ready_config 2 "output_log_02.txt" pos'
       (fresh_world noon_clock)).
Proof.
  apply (split_line_is_read_as_two 3 split_env ready_config 0 "output_log_02.txt"
           (fresh_world noon_clock) ("old line" +:+ nl) "12:00:00 OnPlayer"
           "Joined User123" "").
  - reflexivity.
  - reflexivity.
  - reflexivity.
  - reflexivity.
  - discriminate.
  - reflexivity.
  - reflexivity.
Defined.

(** At the sample input the two pieces spell a configured key, and neither
    holds one. *)
Lemma split_sample_pieces :
  occurs_in "OnPlayerJoined" ("12:00:00 OnPlayer" +:+ "Joined User123" +:+ nl) /\
  no_key_occurs (event_configs ready_config) "12:00:00 OnPlayer" /\
  no_key_occurs (event_configs ready_config) ("Joined User123" +:+ nl).
Proof.
  split; [apply str_in_spec; reflexivity|].
  split; repeat constructor; apply str_in_false; reflexivity.
Qed.

(** Once the stop event is set, the second loop returns. *)
Lemma tail_loop_stops (env : nat -> Env) (cfg : Config) (path : string) (n : nat) :
  forall fuel i pos w,
    env_stop (env (i + n)) = true ->
    n <= fuel ->
    (tail_loop fuel env cfg i path pos w).1.1 = Returned.
Proof.
  induction n as [|n IH]; intros fuel i pos w Hstop Hfuel.
  - rewrite Nat.add_0_r in Hstop. destruct fuel; simpl; by rewrite Hstop.
  - destruct fuel as [|fuel]; [lia|]. cbn [tail_loop].
    destruct (env_stop (env i)); [done|].
    replace (i + S n) with (S i + n) in Hstop by lia.
    destruct (String.eqb _ ""); apply IH; done || lia.
Qed.

(** Once the stop event is set, the first loop is left, at that turn or
    before; if it is left with a path, the stop event was not yet set. *)
Lemma wait_loop_stops (env : nat -> Env) (cfg : Config) (n : nat) :
  forall fuel i p0,
    env_stop (env (i + n)) = true ->
    n <= fuel ->
    exists p j,
      wait_loop fuel env cfg i p0 = Some (p, j) /\
      (env_stop (env j) = true /\ p = p0 /\ j = i \/
       env_stop (env j) = true /\ path_truthy p = false \/
       j < i + n).
Proof.
  induction n as [|n IH]; intros fuel i p0 Hstop Hfuel.
  - rewrite Nat.add_0_r in Hstop. exists p0, i.
    split; [destruct fuel; simpl; by rewrite Hstop | by left].
  - destruct fuel as [|fuel]; [lia|]. cbn [wait_loop].
    destruct (env_stop (env i)) eqn:Hi.
    + exists p0, i. split; [done | by left].
    + destruct (path_truthy (@get_latest_log_file (env_host (env i)) cfg)) eqn:Hfound.
      * eexists _, i. split; [done|]. right. right. lia.
      * replace (i + S n) with (S i + n) in Hstop by lia.
        destruct (IH fuel (S i) (@get_latest_log_file (env_host (env i)) cfg) Hstop)
          as (p & j & -> & Hj); [lia|].
        exists p, j. split; [done|].
        destruct Hj as [(Hs & -> & ->) | [[Hs Hp] | Hlt]].
        -- right. by left.
        -- right. by left.
        -- right. right. lia.
Qed.

(** X21. Stopping works: if the stop event is set at some turn that the
    fuel reaches, [run] returns, whether it was still waiting for a log
    file or already tailing one. *)
Theorem run_returns_once_stopped (fuel : nat) (env : nat -> Env) (cfg : Config)
    (w : World) (m : nat) :
  env_stop (env m) = true ->
  m <= fuel ->
  (run fuel env cfg w).1.1 = Returned.
Proof.
  intros Hstop Hfuel. unfold run.
  destruct (wait_loop_stops env cfg m fuel 0 None Hstop Hfuel) as (p & j & -> & Hj).
  destruct p as [path|]; [|done].
  destruct (path_truthy (Some path)) eqn:Hp; [|done].
  assert (j < m) as Hlt.
  { destruct Hj as [(_ & Heq & _) | [[_ Hf] | Hlt]]; [done | congruence | lia]. }
  pose proof (tail_loop_stops env cfg path (m - S j) fuel (S j)
                (String.length (env_source (env j) path)) w) as Ht.
  replace (S j + (m - S j)) with m in Ht by lia.
  specialize (Ht Hstop ltac:(lia)).
  by destruct (tail_loop fuel env cfg (S j) path _ w) as [[status pos'] w'].
Qed.

Lemma run_returns_once_stopped_witness :
  (run 8 growing_env sample_config (fresh_world noon_clock)).1.1 = Returned.
Proof.
  apply (run_returns_once_stopped 8 growing_env sample_config (fresh_world noon_clock) 6).
  - reflexivity.
  - lia.
Defined.

(** ** The monitor and the forwarder together *)

Section Together.
Context {N C : Type} `{Discord N C}.

Lemma sys_step_takes (cfg : Config) (channel : C) (s s' : Bot N * World) :
  sys_step cfg channel s s' ->
  exists taken added,
    dequeued (out (fst s')) = dequeued (out (fst s)) ++ taken /\
    taken ++ queue (snd s') = queue (snd s) ++ added.
Proof.
  intros [line b w | b w Hc]; cbn [fst snd].
  - destruct (process_line_queue cfg line w) as [added ->].
    exists [], added. by rewrite app_nil_r.
  - unfold forward_iter, queue_get_nowait.
    destruct (queue w) as [|it rest] eqn:Hq; cbn [fst snd].
    + exists [], []. cbn [emit out]. rewrite dequeued_app, Hq. simpl.
      by rewrite !app_nil_r.
    + destruct (handle_item_trace channel it (emit (EvGet it) b)) as (tr & -> & Hd & _).
      exists [it], []. cbn [emit out queue]. rewrite !dequeued_app, Hd. simpl.
      by rewrite !app_nil_r.
Qed.

(** X22. However the monitor thread and the forwarder interleave, the
    queue is first in, first out, without loss or repetition: the items
    the forwarder has taken in the meantime, followed by what is queued
    now, are what was queued before followed by what the monitor added. *)
Theorem queue_is_fifo_under_interleaving (cfg : Config) (channel : C)
    (s s' : Bot N * World) :
  rtc (sys_step cfg channel) s s' ->
  exists taken added,
    dequeued (out (fst s')) = dequeued (out (fst s)) ++ taken /\
    taken ++ queue (snd s') = queue (snd s) ++ added.
Proof.
  induction 1 as [s | s s1 s' Hstep _ (t2 & a2 & Hd2 & Hq2)].
  - exists [], []. by rewrite !app_nil_r.
  - destruct (sys_step_takes cfg channel s s1 Hstep) as (t1 & a1 & Hd1 & Hq1).
    exists (t1 ++ t2), (a1 ++ a2). split.
    + by rewrite Hd2, Hd1, <- app_assoc.
    + by rewrite <- app_assoc, Hq2, !app_assoc, Hq1.
Qed.

End Together.

Lemma queue_is_fifo_under_interleaving_witness :
  exists taken added,
    dequeued (out (fst (@forward_iter _ _ flaky_discord 42%Z idle_bot
                          (process_line sample_config sample_line
                             (fresh_world noon_clock)))))
    = dequeued (out (fst (idle_bot, fresh_world noon_clock))) ++ taken /\
    taken ++ queue (snd (@forward_iter _ _ flaky_discord 42%Z idle_bot
                           (process_line sample_config sample_line
                              (fresh_world noon_clock))))
    = queue (snd (idle_bot, fresh_world noon_clock)) ++ added.
Proof.
  apply (@queue_is_fifo_under_interleaving _ _ flaky_discord sample_config 42%Z
           (idle_bot, fresh_world noon_clock)
           (@forward_iter _ _ flaky_discord 42%Z idle_bot
              (process_line sample_config sample_line (fresh_world noon_clock)))).
  eapply rtc_l; [apply (step_monitor sample_config 42%Z sample_line)|].
  eapply rtc_l; [apply step_forwarder; reflexivity|].
  apply rtc_refl.
Defined.

(** ** Colours that cannot convert *)

Lemma strip_sign_eq (s : string) :
  PyInt.strip_sign s =
  match s with
  | String a s' =>
      if Ascii.eqb a "+" then (false, s')
      else if Ascii.eqb a "-" then (true, s')
      else (false, s)
  | EmptyString => (false, EmptyString)
  end.
Proof.
  destruct s as [|a s']; [done|].
  destruct a as [[] [] [] [] [] [] [] []]; reflexivity.
Qed.

Lemma strip_prefix16_eq (s : string) :
  PyInt.strip_prefix 16 s =
  match s with
  | String a (String x s') =>
      if Ascii.eqb a "0" && (Ascii.eqb x "x" || Ascii.eqb x "X") then
        match s' with
        | String u s'' => if Ascii.eqb u "_" then s'' else s'
        | EmptyString => s'
        end
      else s
  | _ => s
  end.
Proof.
  destruct s as [|a [|x s']]; [done | |].
  - destruct a as [[] [] [] [] [] [] [] []]; reflexivity.
  - destruct a as [[] [] [] [] [] [] [] []]; try reflexivity.
    unfold PyInt.strip_prefix. simpl.
    destruct (Ascii.eqb x "x" || Ascii.eqb x "X"); [|reflexivity].
    destruct s' as [|u s'']; [reflexivity|].
    destruct u as [[] [] [] [] [] [] [] []]; reflexivity.
Qed.

Lemma py_int_eq (s : string) (base : Z) :
  PyInt.py_int s base =
  let s2 := PyInt.strip_prefix base (snd (PyInt.strip_sign (PyInt.skip_spaces s))) in
  if match s2 with String a _ => Ascii.eqb a "_" | EmptyString => false end then None
  else match PyInt.scan_digits base s2 false 0 0%Z with
       | Some (v, n, rest) =>
           if (n =? 0)%nat then None
           else match PyInt.skip_spaces rest with
                | EmptyString =>
                    Some (if fst (PyInt.strip_sign (PyInt.skip_spaces s))
                          then (- v)%Z else v)
                | _ => None
                end
       | None => None
       end.
Proof.
  unfold PyInt.py_int.
  destruct (PyInt.strip_sign (PyInt.skip_spaces s)) as [neg s1]. cbn [fst snd].
  cbv zeta. destruct (PyInt.strip_prefix base s1) as [|a t]; [reflexivity|].
  destruct a as [[] [] [] [] [] [] [] []]; reflexivity.
Qed.

Lemma foreign_char_cases (a : ascii) :
  foreign_char a = true ->
  PyInt.is_space a = false /\
  PyInt.digit_in 16 a = None /\
  Ascii.eqb a "+" = false /\
  Ascii.eqb a "-" = false /\
  Ascii.eqb a "_" = false /\
  Ascii.eqb a "x" = false /\
  Ascii.eqb a "X" = false.
Proof.
  unfold foreign_char.
  destruct (PyInt.is_space a), (PyInt.digit_in 16 a), (Ascii.eqb a "+"),
    (Ascii.eqb a "-"), (Ascii.eqb a "_"), (Ascii.eqb a "x"), (Ascii.eqb a "X");
    simpl; intros Hf; try discriminate Hf; repeat split; reflexivity.
Qed.

(** Taking a character that is not foreign off the front keeps the
    foreign one in the rest. *)
Lemma foreign_tail (a : ascii) (s : string) :
  foreign_char a = false -> has_foreign_char (String a s) = true ->
  has_foreign_char s = true.
Proof. cbn [has_foreign_char]. by intros ->. Qed.

Lemma foreign_skip_spaces (s : string) :
  has_foreign_char s = true -> has_foreign_char (PyInt.skip_spaces s) = true.
Proof.
  induction s as [|a s IH]; [done|]. intros Hf. cbn [PyInt.skip_spaces].
  destruct (PyInt.is_space a) eqn:Hsp; [|done].
  apply IH, (foreign_tail a); [|done].
  destruct (foreign_char a) eqn:Hfa; [|done].
  apply foreign_char_cases in Hfa as (Hn & _). congruence.
Qed.

Lemma foreign_strip_sign (s : string) :
  has_foreign_char s = true -> has_foreign_char (snd (PyInt.strip_sign s)) = true.
Proof.
  rewrite strip_sign_eq. destruct s as [|a s]; [done|]. intros Hf.
  destruct (Ascii.eqb a "+") eqn:Hp; [|destruct (Ascii.eqb a "-") eqn:Hm; [|done]];
    cbn [snd]; apply (foreign_tail a); try done;
    destruct (foreign_char a) eqn:Hfa; try done;
    apply foreign_char_cases in Hfa as (_ & _ & Hp' & Hm' & _); congruence.
Qed.

Lemma foreign_strip_prefix (s : string) :
  has_foreign_char s = true -> has_foreign_char (PyInt.strip_prefix 16 s) = true.
Proof.
  rewrite strip_prefix16_eq. destruct s as [|a [|x s']]; [done | done |]. intros Hf.
  destruct (Ascii.eqb a "0" && (Ascii.eqb x "x" || Ascii.eqb x "X")) eqn:Hpre; [|done].
  apply andb_true_iff in Hpre as [Ha Hx]. apply Ascii.eqb_eq in Ha as ->.
  apply (foreign_tail "0") in Hf; [|reflexivity].
  apply (foreign_tail x) in Hf.
  2:{ destruct (foreign_char x) eqn:Hfx; [|done].
      apply foreign_char_cases in Hfx as (_ & _ & _ & _ & _ & Hl & Hu).
      rewrite Hl, Hu in Hx. discriminate Hx. }
  destruct s' as [|u s'']; [done|].
  destruct (Ascii.eqb u "_") eqn:Hu; [|done].
  apply (foreign_tail u); [|done].
  destruct (foreign_char u) eqn:Hfu; [|done].
  apply foreign_char_cases in Hfu as (_ & _ & _ & _ & Hu' & _). congruence.
Qed.

Lemma foreign_scan (s : string) :
  forall us n acc v m rest,
    PyInt.scan_digits 16 s us n acc = Some (v, m, rest) ->
    has_foreign_char s = true ->
    has_foreign_char rest = true.
Proof.
  induction s as [|a s IH]; intros us n acc v m rest Hscan Hf; [done|].
  cbn [PyInt.scan_digits] in Hscan.
  destruct (Ascii.eqb a "_") eqn:Hus.
  - destruct us; [done|]. eapply IH; [exact Hscan|].
    apply (foreign_tail a); [|done].
    destruct (foreign_char a) eqn:Hfa; [|done].
    apply foreign_char_cases in Hfa as (_ & _ & _ & _ & Hu' & _). congruence.
  - destruct (PyInt.digit_in 16 a) as [d|] eqn:Hd.
    + eapply IH; [exact Hscan|]. apply (foreign_tail a); [|done].
      destruct (foreign_char a) eqn:Hfa; [|done].
      apply foreign_char_cases in Hfa as (_ & Hd' & _). congruence.
    + destruct us; [done|]. injection Hscan as _ _ <-. done.
Qed.

Lemma foreign_not_blank (s : string) :
  has_foreign_char s = true -> PyInt.skip_spaces s ≠ "".
Proof.
  induction s as [|a s IH]; [done|]. intros Hf. cbn [PyInt.skip_spaces].
  destruct (PyInt.is_space a) eqn:Hsp; [|done].
  apply IH, (foreign_tail a); [|done].
  destruct (foreign_char a) eqn:Hfa; [|done].
  apply foreign_char_cases in Hfa as (Hn & _). congruence.
Qed.

(** A string that holds a character no base-16 literal can hold is
    rejected by [int(s, 16)], wherever the character stands. *)
Lemma py_int_rejects_foreign (s : string) :
  has_foreign_char s = true -> PyInt.py_int s 16 = None.
Proof.
  intros Hf. rewrite py_int_eq. cbv zeta.
  pose proof (foreign_strip_prefix _ (foreign_strip_sign _ (foreign_skip_spaces _ Hf)))
    as Hf2.
  destruct (match PyInt.strip_prefix 16 _ with String a _ => _ | _ => _ end); [done|].
  destruct (PyInt.scan_digits 16 _ false 0 0%Z) as [[[v n] rest]|] eqn:Hscan; [|done].
  destruct (n =? 0)%nat; [done|].
  pose proof (foreign_not_blank rest (foreign_scan _ _ _ _ _ _ _ Hscan Hf2)) as Hrest.
  by destruct (PyInt.skip_spaces rest).
Qed.

(** So a colour with such a character after its leading ['#'], a letter
    beyond [f] say, never converts: the conversion raises [ValueError]. *)
Lemma foreign_colour_raises (s : string) :
  has_foreign_char (PyStr.lstrip "#" s) = true ->
  hex_to_int (JStr s) = inl (ValueError (PyStr.lstrip "#" s)).
Proof.
  intros Hf. unfold hex_to_int. by rewrite (py_int_rejects_foreign _ Hf).
Qed.

(** ** Reading to the end *)








